(** * python-practice: decorators and context managers

    A shallow embedding of the two notebooks of the repository,
    [decorators.ipynb] and [context_manager.ipynb], and the properties of
    their utilities.

    Python code is embedded as computations of a state-and-exception monad:
    a computation takes the current state (the wrapper's local variables, the
    hidden state of the callable it wraps and the trace of observable calls)
    and yields either [Return v] or [Raise e] with the next state.  [await] is
    sequencing: one coroutine runs at a time and the examples never spawn
    tasks. *)

From Stdlib Require Import List ZArith Lia Bool String Arith.
From Stdlib Require QArith.
Import ListNotations.

Set Implicit Arguments.

(* ================================================================= *)
(** ** The Python run-time notions the notebooks rely on *)

Module Py.

(** The exception classes that occur in the notebooks, with the part of the
    built-in hierarchy above them. *)
Inductive exc_type : Type :=
| BaseException
| Exception
| KeyboardInterrupt
| SystemExit
| CancelledError
| TypeError
| ValueError
| RuntimeError
| OSError
| sqlite3_Error
| sqlite3_OperationalError
| aiohttp_ClientError
| aiohttp_InvalidUrlClientError.

Definition exc_type_eqb (a b : exc_type) : bool :=
  match a, b with
  | BaseException, BaseException
  | Exception, Exception
  | KeyboardInterrupt, KeyboardInterrupt
  | SystemExit, SystemExit
  | CancelledError, CancelledError
  | TypeError, TypeError
  | ValueError, ValueError
  | RuntimeError, RuntimeError
  | OSError, OSError
  | sqlite3_Error, sqlite3_Error
  | sqlite3_OperationalError, sqlite3_OperationalError
  | aiohttp_ClientError, aiohttp_ClientError
  | aiohttp_InvalidUrlClientError, aiohttp_InvalidUrlClientError => true
  | _, _ => false
  end.

(** The method resolution order of each class: the class and its bases. *)
Definition mro (t : exc_type) : list exc_type :=
  match t with
  | BaseException => [BaseException]
  | Exception => [Exception; BaseException]
  | KeyboardInterrupt => [KeyboardInterrupt; BaseException]
  | SystemExit => [SystemExit; BaseException]
  | CancelledError => [CancelledError; BaseException]
  | TypeError => [TypeError; Exception; BaseException]
  | ValueError => [ValueError; Exception; BaseException]
  | RuntimeError => [RuntimeError; Exception; BaseException]
  | OSError => [OSError; Exception; BaseException]
  | sqlite3_Error => [sqlite3_Error; Exception; BaseException]
  | sqlite3_OperationalError =>
      [sqlite3_OperationalError; sqlite3_Error; Exception; BaseException]
  | aiohttp_ClientError => [aiohttp_ClientError; Exception; BaseException]
  | aiohttp_InvalidUrlClientError =>
      [aiohttp_InvalidUrlClientError; aiohttp_ClientError; ValueError;
       Exception; BaseException]
  end.

Definition issubclass (t c : exc_type) : bool :=
  existsb (exc_type_eqb c) (mro t).

(** An exception object: its class and the text [str(e)] gives. *)
Record exn : Type := mk_exn { exn_type : exc_type; exn_msg : string }.

Definition isinstance (e : exn) (c : exc_type) : bool :=
  issubclass (exn_type e) c.

(** How a call ends. *)
Inductive Outcome (A : Type) : Type :=
| Return (a : A)
| Raise (e : exn).
Arguments Raise {A} e.

(** [M St A]: a computation over the state [St]. *)
Definition M (St A : Type) : Type := St -> Outcome A * St.

Definition ret {St A} (a : A) : M St A := fun s => (Return a, s).

Definition raise {St A} (e : exn) : M St A := fun s => (Raise e, s).

Definition bind {St A B} (m : M St A) (k : A -> M St B) : M St B :=
  fun s =>
    match m s with
    | (Return a, s') => k a s'
    | (Raise e, s') => (Raise e, s')
    end.

Definition get {St} : M St St := fun s => (Return s, s).

Definition modify {St} (f : St -> St) : M St unit :=
  fun s => (Return tt, f s).

(** [if c: body] *)
Definition when {St} (c : bool) (body : M St unit) : M St unit :=
  if c then body else ret tt.

(** [try: body / except C as e: handler e]; an exception that is not an
    instance of [C] passes through. *)
Definition try_except {St A} (body : M St A) (C : exc_type)
    (handler : exn -> M St A) : M St A :=
  fun s =>
    match body s with
    | (Return a, s') => (Return a, s')
    | (Raise e, s') =>
        if isinstance e C then handler e s' else (Raise e, s')
    end.

(** [try: body / finally: final]; [final] runs on both ways out, and an
    exception of [final] replaces the pending outcome. *)
Definition try_finally {St A} (body : M St A) (final : M St unit)
    : M St A :=
  fun s =>
    match body s with
    | (r, s') =>
        match final s' with
        | (Return _, s'') => (r, s'')
        | (Raise e, s'') => (Raise e, s'')
        end
    end.

(** The states used below pair some data [X] (local variables, the hidden
    state of a wrapped callable) with the trace of observable calls, oldest
    first. *)
Definition emit {X Ev} (ev : Ev) : M (X * list Ev) unit :=
  modify (fun st => (fst st, snd st ++ [ev])).

(** Running a computation that only sees [X]. *)
Definition on_data {X Ev A} (f : X -> Outcome A * X) : M (X * list Ev) A :=
  fun st => let '(r, x') := f (fst st) in (r, (x', snd st)).

(** A caller that invokes [wrapper] on each argument list in turn and
    keeps every outcome (an exception ends that invocation only). *)
Fixpoint call_each {St Args A} (wrapper : Args -> M St A)
    (calls : list Args) (st : St) : list (Outcome A) * St :=
  match calls with
  | [] => ([], st)
  | args :: calls' =>
      let '(r, st') := wrapper args st in
      let '(rs, st'') := call_each wrapper calls' st' in
      (r :: rs, st'')
  end.

(** [raise x] where [x] may be [None]: raising [None] is itself a
    [TypeError]. *)
Definition raise_None : exn :=
  mk_exn TypeError "exceptions must derive from BaseException"%string.

Definition raise_obj {St A} (x : option exn) : M St A :=
  match x with
  | Some e => raise e
  | None => raise raise_None
  end.

(** Truth value of a variable that holds [None] or an object of a class
    with neither [__bool__] nor [__len__] (connections, files, sessions and
    responses are such objects). *)
Definition truthy {A} (x : option A) : bool :=
  match x with
  | Some _ => true
  | None => false
  end.

(** [range(n)] *)
Definition range (n : Z) : list Z :=
  map Z.of_nat (seq 0 (Z.to_nat n)).

(** [time.sleep(secs)]: a negative length is a [ValueError].  The seconds
    are an [int], or a [float] given as a rational. *)
Definition negative_sleep : exn :=
  mk_exn ValueError "sleep length must be non-negative"%string.

Definition time_sleep_int (secs : Z) : Outcome unit :=
  if (secs <? 0)%Z then Raise negative_sleep else Return tt.

Definition time_sleep (secs : QArith_base.Q) : Outcome unit :=
  if QArith_base.Qle_bool (QArith_base.Qmake 0 1) secs then Return tt
  else Raise negative_sleep.

End Py.

Import Py.

Declare Scope py_scope.
Delimit Scope py_scope with py.
Notation "x <- m ;; k" := (bind m (fun x => k))
  (at level 61, m at next level, right associativity) : py_scope.
Notation "m ;; k" := (bind m (fun _ => k))
  (at level 61, right associativity) : py_scope.
Open Scope py_scope.

(* ================================================================= *)
(** ** decorators.ipynb *)

Module Decorators.

Local Open Scope Z_scope.

(** *** [retry] *)
Section Retry.

(** The wrapped callable: its arguments (positional and keyword ones
    together), its results and whatever hidden state makes successive calls
    differ (the notebook's [cube] draws a random number). *)
Variables (Args R S Delay : Type).

(** How [sleep(delay)] ends: [time.sleep] raises for a delay it does not
    accept (a negative one, a NaN). *)
Variable sleep : Delay -> Outcome unit.

(** What [print] writes in [wrapped]: the attempt number [attempt + 1],
    [tries] and [str(e)]. *)
Record AttemptFailed : Type :=
  mk_AttemptFailed { af_attempt : Z; af_tries : Z; af_error : string }.

Inductive RetryEvent : Type :=
| Call (args : Args)                   (* the call of [func] *)
| PrintFailed (line : AttemptFailed)   (* [print(...)] *)
| Sleep (delay : Delay).               (* [sleep(delay)] *)

Definition RetrySt : Type := (S * list RetryEvent)%type.

(** Calling the underlying callable, recorded on the trace. *)
Definition call (func : Args -> S -> Outcome R * S) (args : Args)
    : M RetrySt R :=
  emit (Call args) ;; on_data (func args).

(** The [for attempt in range(tries)] loop of [wrapped] with the local
    [last_exception], followed by [raise last_exception]. *)
Fixpoint attempts (tries : Z) (delay : Delay)
    (func : Args -> S -> Outcome R * S) (args : Args)
    (todo : list Z) (last_exception : option exn) : M RetrySt R :=
  match todo with
  | [] => raise_obj last_exception
  | attempt :: todo' =>
      try_except
        (call func args)
        Exception
        (fun e =>
           let last_exception := Some e in
           emit (PrintFailed
                   (mk_AttemptFailed (attempt + 1) tries (exn_msg e))) ;;
           when (attempt <? tries - 1)
             (emit (Sleep delay) ;; on_data (fun x => (sleep delay, x))) ;;
           attempts tries delay func args todo' last_exception)
  end.

(** [retry(tries, delay)(func)] applied to [args]. *)
Definition retry (tries : Z) (delay : Delay)
    (func : Args -> S -> Outcome R * S) (args : Args) : M RetrySt R :=
  attempts tries delay func args (range tries) None.

(** Vocabulary for the properties of [retry].  [fails_run func args s es s']:
    called again and again from state [s], [func] raises the exceptions [es]
    in this order, each one an instance of [Exception], and is left in
    state [s']. *)
Inductive fails_run (func : Args -> S -> Outcome R * S) (args : Args)
    : S -> list exn -> S -> Prop :=
| fails_nil : forall s, fails_run func args s [] s
| fails_cons : forall s e s1 es s',
    func args s = (Raise e, s1) ->
    isinstance e Exception = true ->
    fails_run func args s1 es s' ->
    fails_run func args s (e :: es) s'.

(** What a failed attempt that is not the final one leaves on the trace,
    in the specification's words: the call, the report of the failure, the
    wait.  [attempt] counts from zero. *)
Fixpoint waited_failures (tries : Z) (delay : Delay) (args : Args)
    (attempt : Z) (es : list exn) : list RetryEvent :=
  match es with
  | [] => []
  | e :: es' =>
      [Call args;
       PrintFailed (mk_AttemptFailed (attempt + 1) tries (exn_msg e));
       Sleep delay]
      ++ waited_failures tries delay args (attempt + 1) es'
  end.

(** The number of calls of the underlying callable on a trace. *)
Definition calls (tr : list RetryEvent) : nat :=
  List.length (filter (fun ev => match ev with Call _ => true | _ => false end)
                 tr).

(** The waits on a trace. *)
Definition sleeps (tr : list RetryEvent) : list Delay :=
  flat_map (fun ev => match ev with Sleep d => [d] | _ => [] end) tr.

(** The reports on a trace. *)
Definition prints (tr : list RetryEvent) : list AttemptFailed :=
  flat_map (fun ev => match ev with PrintFailed l => [l] | _ => [] end) tr.

End Retry.

Arguments Call {Args Delay} args.
Arguments PrintFailed {Args Delay} line.
Arguments Sleep {Args Delay} delay.

(** *** [log] *)
Section Log.

Variables (Args R S : Type).

Inductive LogEvent : Type :=
| PrintStarting (name : string) (args : Args)
    (* [print] of the coroutine's [__name__] and the arguments *)
| Await (args : Args)
    (* [await coroutine(...)] *)
| PrintResult (result : R).
    (* [print] of the result *)

Definition LogSt : Type := (S * list LogEvent)%type.

(** [log(coroutine)] applied to [args]; [name] is
    [coroutine.__name__]. *)
Definition log (name : string) (coroutine : Args -> S -> Outcome R * S)
    (args : Args) : M LogSt R :=
  emit (PrintStarting name args) ;;
  result <- (emit (Await args) ;; on_data (coroutine args)) ;;
  emit (PrintResult result) ;;
  ret result.

End Log.

Arguments PrintStarting {Args R} name args.
Arguments Await {Args R} args.
Arguments PrintResult {Args R} result.

(** *** [functools.lru_cache]

    The notebook applies [@lru_cache] bare, which is
    [lru_cache(maxsize=128, typed=False)].  The wrapper of the standard
    library first makes the key of the arguments, which hashes them and is a
    [TypeError] for unhashable ones; it keeps its entries in order of use
    and, once [maxsize] entries are stored, replaces the least recently used
    one; an exception of the user function is not stored. *)
Section LruCache.

Variables (Args R S : Type).
Variable Args_eq_dec : forall a b : Args, {a = b} + {a <> b}.
(** Whether [hash] accepts the arguments. *)
Variable hashable : Args -> bool.

Definition unhashable : exn := mk_exn TypeError "unhashable type".

Inductive CacheEvent : Type :=
| UserFunction (args : Args) (out : Outcome R)
    (* [user_function] was executed and ended with [out] *)
| Evict (key : Args).
    (* the entry of [key] was dropped *)

(** The wrapper's data: the entries, most recently used first, and the
    counters [cache_info()] reports, next to the user function's own
    state. *)
Record LruData : Type := mk_LruData {
  user_state : S;
  cache : list (Args * R);
  hits : nat;
  misses : nat
}.

Definition LruSt : Type := (LruData * list CacheEvent)%type.

Definition init (s : S) : LruSt := (mk_LruData s [] 0 0, []).

Fixpoint cache_get (key : Args) (c : list (Args * R)) : option R :=
  match c with
  | [] => None
  | (k, v) :: c' => if Args_eq_dec key k then Some v else cache_get key c'
  end.

Definition cache_del (key : Args) (c : list (Args * R))
    : list (Args * R) :=
  filter (fun kv => if Args_eq_dec key (fst kv) then false else true) c.

(** The key of the least recently used entry. *)
Definition oldest (c : list (Args * R)) : option Args :=
  option_map fst (last (map Some c) None).

Definition user_call (user_function : Args -> S -> Outcome R * S)
    (args : Args) : M LruSt R :=
  fun st =>
    let d := fst st in
    let '(r, s') := user_function args (user_state d) in
    (r, (mk_LruData s' (cache d) (hits d) (misses d),
         snd st ++ [UserFunction args r])).

Definition store (maxsize : nat) (key : Args) (result : R)
    : M LruSt unit :=
  fun st =>
    let d := fst st in
    match cache_get key (cache d) with
    | Some _ => (Return tt, st)
    | None =>
        if (maxsize <=? List.length (cache d))%nat then
          match oldest (cache d) with
          | Some oldkey =>
              (Return tt,
               (mk_LruData (user_state d)
                  ((key, result) :: removelast (cache d))
                  (hits d) (misses d),
                snd st ++ [Evict oldkey]))
          | None =>
              (Return tt,
               (mk_LruData (user_state d) [(key, result)]
                  (hits d) (misses d), snd st))
          end
        else
          (Return tt,
           (mk_LruData (user_state d) ((key, result) :: cache d)
              (hits d) (misses d), snd st))
    end.

(** The bounded wrapper ([maxsize] positive). *)
Definition lru_cache_wrapper (maxsize : nat)
    (user_function : Args -> S -> Outcome R * S) (args : Args)
    : M LruSt R :=
  (if hashable args then ret tt else raise unhashable) ;;
  st <- get ;;
  let d := fst st in
  match cache_get args (cache d) with
  | Some result =>
      modify (fun st =>
        (mk_LruData (user_state d)
           ((args, result) :: cache_del args (cache d))
           (Datatypes.S (hits d)) (misses d), snd st)) ;;
      ret result
  | None =>
      modify (fun st =>
        (mk_LruData (user_state d) (cache d) (hits d)
           (Datatypes.S (misses d)), snd st)) ;;
      result <- user_call user_function args ;;
      store maxsize args result ;;
      ret result
  end.

(** [@lru_cache] *)
Definition lru_cache := lru_cache_wrapper 128.




(** How often the user function was executed, whatever the arguments. *)
Definition total_executions (tr : list CacheEvent) : nat :=
  List.length
    (filter (fun ev => match ev with UserFunction _ _ => true | _ => false end)
       tr).

End LruCache.

Arguments UserFunction {Args R} args out.
Arguments Evict {Args R} key.
Arguments init {Args R S} s.

(** The memoized function of the notebook: it sleeps three seconds and
    returns [True].  Its state lists the sleeps that took place. *)
Definition calculations (_ : unit) (slept : list Z)
    : Outcome bool * list Z :=
  (Return true, slept ++ [3]).

(** *** The cell that decorates [cube] with [@retry()]

    [random()] returns a float of the unit interval; the values it returns,
    one per call, are given as rationals.  The state of [cube] is the number
    of calls made so far: each call sleeps two seconds and draws once. *)
Section Cube.

Variable draws : nat -> QArith_base.Q.

Definition half : QArith_base.Q := QArith_base.Qmake 1 2.

(** [x < y] on the values drawn. *)
Definition Qlt_bool (x y : QArith_base.Q) : bool :=
  negb (QArith_base.Qle_bool y x).

Definition cube_error : exn :=
  mk_exn ValueError "Random error during calculation!".

(** [cube] as written, before it is decorated. *)
Definition cube (number : Z) (called : nat) : Outcome Z * nat :=
  (if Qlt_bool (draws called) half then Raise cube_error
   else Return (number ^ 3),
   Datatypes.S called).

(** [@retry()]: [tries = 3], [delay = 1.0]. *)
Definition retried_cube (number : Z)
    : M (RetrySt Z nat QArith_base.Q) Z :=
  retry time_sleep 3 (QArith_base.Qmake 1 1) cube number.

(** [main]: [result = cube(3)], then [print(result)]; the value returned
    stands for the value printed. *)
Definition main (called : nat) : Outcome Z * RetrySt Z nat QArith_base.Q :=
  retried_cube 3 (called, []).

End Cube.

End Decorators.

(* ================================================================= *)
(** ** context_manager.ipynb

    A generator decorated with [@contextmanager] (or
    [@asynccontextmanager]) is embedded together with the [with] statement
    that drives it: the caller's block runs where the generator yields, and an
    exception of the block is raised at the [yield].  Only what the manager
    itself does is put on the trace; the block is seen through its outcome. *)

Module ContextManager.

(** [if x: body(x)] for a variable that holds [None] or an object. *)
Definition if_truthy {St A} (x : option A) (body : A -> M St unit)
    : M St unit :=
  match x with
  | Some a => when (truthy x) (body a)
  | None => ret tt
  end.

(** *** [db_connection] *)
Section DbConnection.

Variable Connection : Type.
(** How [sqlite3.connect(db_path)] and [conn.commit()] end. *)
Variable sqlite3_connect : string -> Outcome Connection.
Variable sqlite3_commit : Connection -> Outcome unit.

Inductive DbEvent : Type :=
| Connect (db_path : string)
| DbYield (conn : Connection)
| Commit (conn : Connection)
| Rollback (conn : Connection)
| Close (conn : Connection).

(** The local [conn] and the trace. *)
Definition DbSt : Type := (option Connection * list DbEvent)%type.

Definition set_conn (v : option Connection) : M DbSt unit :=
  modify (fun st => (v, snd st)).

Definition get_conn : M DbSt (option Connection) :=
  st <- get ;; ret (fst st).

Definition db_connection (db_path : string)
    (block : Connection -> Outcome unit) : M DbSt unit :=
  set_conn None ;;
  try_finally
    (try_except
       (c <- (emit (Connect db_path) ;;
              on_data (fun x => (sqlite3_connect db_path, x))) ;;
        set_conn (Some c) ;;
        (emit (DbYield c) ;; on_data (fun x => (block c, x))) ;;
        (emit (Commit c) ;; on_data (fun x => (sqlite3_commit c, x))))
       sqlite3_Error
       (fun e =>
          conn <- get_conn ;;
          if_truthy conn (fun c => emit (Rollback c)) ;;
          raise e))
    (conn <- get_conn ;;
     if_truthy conn (fun c => emit (Close c))).

(** The cell that uses [db_connection]: the [with] statement inside
    [try], the report of an [Exception] in [except], the report of success
    in [else].  The line the cell prints is its result. *)
Definition dquote : string := String (Ascii.ascii_of_nat 34) EmptyString.

Definition error_line (e : exn) : string :=
  ("Error during database operation " ++ dquote ++ exn_msg e ++ dquote)%string.

Definition success_line : string := "Operation completed successfully!".

Definition db_cell (block : Connection -> Outcome unit)
    : Outcome string * DbSt :=
  try_except
    (db_connection "test.db" block ;; ret success_line)
    Exception
    (fun e => ret (error_line e))
    (None, []).

(** How often the manager closed a connection, and whether it rolled
    back. *)
Definition db_closes (tr : list DbEvent) : nat :=
  List.length
    (filter (fun ev => match ev with Close _ => true | _ => false end) tr).

Definition db_rollbacks (tr : list DbEvent) : nat :=
  List.length
    (filter (fun ev => match ev with Rollback _ => true | _ => false end) tr).

End DbConnection.

Arguments Connect {Connection} db_path.

(** *** [open_file] *)
Section OpenFile.

Variable File : Type.
(** How [open(path, mode)] ends. *)
Variable open : string -> string -> Outcome File.

Inductive FileEvent : Type :=
| Open (path mode : string)
| FileYield (file : File)
| FileClose (file : File).

(** The local [file] and the trace. *)
Definition FileSt : Type := (option File * list FileEvent)%type.

Definition open_file (path mode : string) (block : File -> Outcome unit)
    : M FileSt unit :=
  modify (fun st => (None, snd st)) ;;
  try_finally
    (f <- (emit (Open path mode) ;;
           on_data (fun x => (open path mode, x))) ;;
     modify (fun st => (Some f, snd st)) ;;
     (emit (FileYield f) ;; on_data (fun x => (block f, x))))
    (st <- get ;;
     if_truthy (fst st) (fun f => emit (FileClose f))).

(** How often the manager closed a file. *)
Definition file_closes (tr : list FileEvent) : nat :=
  List.length
    (filter (fun ev => match ev with FileClose _ => true | _ => false end)
       tr).

End OpenFile.

Arguments Open {File} path mode.

(** *** The [async with] statement over an object with [__aenter__] and
    [__aexit__]: [__aexit__] is awaited only once [__aenter__] has
    returned, and its truth value decides whether an exception of the block
    is suppressed. *)
Definition async_with {St A} (aenter : M St A)
    (aexit : option exn -> M St bool) (block : A -> M St unit)
    : M St unit :=
  v <- aenter ;;
  fun st =>
    match block v st with
    | (Return _, st') => (aexit None ;; ret tt) st'
    | (Raise e, st') =>
        (suppress <- aexit (Some e) ;;
         if (suppress : bool) then ret tt else raise e) st'
    end.

(** *** [AsyncWeatherFetcher] *)
Module AsyncWeatherFetcher.
Section Fetcher.

Variables Session Response : Type.
(** The object [aiohttp.ClientSession()] creates, and how
    [await session.get(url)] ends. *)
Variable ClientSession : Session.
Variable session_get : Session -> string -> Outcome Response.

Record self_t : Type := mk_self {
  city : string;
  format : string;
  session : option Session;
  response : option Response
}.

Inductive FetcherEvent : Type :=
| NewSession (s : Session)
| Get (s : Session) (url : string)
| Body                          (* the block of the [async with] *)
| ResponseClose (r : Response)
| SessionClose (s : Session)
| PrintError (exc : exn).

Definition FetcherSt : Type := (self_t * list FetcherEvent)%type.

Definition __init__ (city format : string) : FetcherSt :=
  (mk_self city format None None, []).

(** The f-string of [__aenter__]. *)
Definition wttr_url (city format : string) : string :=
  ("https://wttr.in/" ++ city ++ "?format=" ++ format ++ "&lang=ru")%string.

Definition __aenter__ : M FetcherSt unit :=
  emit (NewSession ClientSession) ;;
  modify (fun st : FetcherSt =>
    (mk_self (city (fst st)) (format (fst st)) (Some ClientSession)
       (response (fst st)), snd st)) ;;
  st <- get ;;
  let self := fst st in
  let url := wttr_url (city self) (format self) in
  r <- (emit (Get ClientSession url) ;;
        on_data (fun x => (session_get ClientSession url, x))) ;;
  modify (fun st : FetcherSt =>
    (mk_self (city (fst st)) (format (fst st)) (session (fst st))
       (Some r), snd st)).

(** [__aexit__] returns [None], which is false. *)
Definition __aexit__ (exc : option exn) : M FetcherSt bool :=
  st <- get ;;
  if_truthy (response (fst st)) (fun r => emit (ResponseClose r)) ;;
  if_truthy (session (fst st)) (fun s => emit (SessionClose s)) ;;
  if_truthy exc (fun e => emit (PrintError e)) ;;
  ret false.

(** [async with AsyncWeatherFetcher(city, format) as fetcher: block] *)
Definition with_fetcher (city format : string) (block : Outcome unit)
    : Outcome unit * FetcherSt :=
  async_with __aenter__ __aexit__
    (fun _ => emit Body ;; on_data (fun x => (block, x)))
    (__init__ city format).

(** How often [__aexit__] closed a session. *)
Definition fetcher_session_closes (tr : list FetcherEvent) : nat :=
  List.length
    (filter (fun ev => match ev with SessionClose _ => true | _ => false end)
       tr).

(** How [await self.response.text()] ends. *)
Variable response_text : Response -> Outcome string.

Definition not_logged_in : exn :=
  mk_exn RuntimeError "Log in to the context manager!".

Definition get_weather : M FetcherSt string :=
  st <- get ;;
  match response (fst st) with
  | None => raise not_logged_in           (* [if not self.response] *)
  | Some r => on_data (fun x => (response_text r, x))
  end.

(** An [async with] statement whose block awaits [get_weather], as the one
    of [main] does before it displays the text. *)
Definition with_get_weather (city format : string)
    : Outcome unit * FetcherSt :=
  async_with __aenter__ __aexit__
    (fun _ => emit Body ;; weather <- get_weather ;; ret tt)
    (__init__ city format).

End Fetcher.

Arguments NewSession {Session Response} s.
Arguments Get {Session Response} s url.
Arguments Body {Session Response}.
Arguments ResponseClose {Session Response} r.
Arguments SessionClose {Session Response} s.
Arguments PrintError {Session Response} exc.
End AsyncWeatherFetcher.

(** *** [async_http_client] *)
Section AsyncHttpClient.

Variable Session : Type.
Variable ClientSession : Session.

Inductive HttpEvent : Type :=
| HttpNewSession (s : Session)
| PrintOpening (url : string)
| HttpYield (s : Session)
| PrintFinished
| PrintSessionError (exc : exn)
| HttpSessionClose (s : Session)
| PrintClosed.

Definition HttpSt : Type := (unit * list HttpEvent)%type.

Definition async_http_client (url : string)
    (block : Session -> Outcome unit) : M HttpSt unit :=
  let session := ClientSession in
  emit (HttpNewSession session) ;;
  try_finally
    (try_except
       (emit (PrintOpening url) ;;
        (emit (HttpYield session) ;;
         on_data (fun x => (block session, x))) ;;
        emit PrintFinished)
       Exception
       (fun e => emit (PrintSessionError e) ;; raise e))
    (emit (HttpSessionClose session) ;; emit PrintClosed).

(** How often the manager closed a session. *)
Definition session_closes (tr : list HttpEvent) : nat :=
  List.length
    (filter (fun ev =>
               match ev with HttpSessionClose _ => true | _ => false end)
       tr).

(** [fetch_data]: inside the session, [client.get('/data')] is entered
    and the JSON body of the response is returned. *)
Variables Response Json : Type.
(** How [client.get(path)] and [await response.json()] end. *)
Variable client_get : Session -> string -> Outcome Response.
Variable response_json : Response -> Outcome Json.



End AsyncHttpClient.

Arguments PrintOpening {Session} url.
Arguments PrintFinished {Session}.
Arguments PrintSessionError {Session} exc.
Arguments PrintClosed {Session}.

End ContextManager.

(* ================================================================= *)
(** ** Callables and blocks used as test inputs *)

Module Fixtures.

(** A callable that counts its invocations in its state, raises [e] on the
    first [k] of them and returns [v] from then on. *)
Definition flaky {R} (k : nat) (e : exn) (v : R) (_ : unit) (n : nat)
    : Outcome R * nat :=
  (if (n <? k)%nat then Raise e else Return v, Datatypes.S n).

(** A callable that raises [e] on every invocation. *)
Definition failing {R} (e : exn) (_ : unit) (n : nat) : Outcome R * nat :=
  (Raise e, Datatypes.S n).

(** The error of the notebook's [cube]. *)
Definition random_error : exn :=
  mk_exn ValueError "Random error during calculation!"%string.

(** What a Ctrl-C during the call raises. *)
Definition interrupt : exn := mk_exn KeyboardInterrupt ""%string.


(** The coroutine [cube] of the notebook's logging example; its state counts
    the times it ran. *)
Definition cube (number : Z) (ran : nat) : Outcome Z * nat :=
  (Return (number * number * number)%Z, Datatypes.S ran).

(** A coroutine that raises [e]. *)
Definition broken (e : exn) (number : Z) (ran : nat) : Outcome Z * nat :=
  (Raise e, Datatypes.S ran).

(** Equality of empty argument lists. *)
Definition unit_eq_dec (a b : unit) : {a = b} + {a <> b} :=
  match a, b with tt, tt => left eq_refl end.

(** A database, a file system and a network that answer, and ones that do
    not.  Handles are named by the path or URL they were opened for. *)
Definition connect_ok (db_path : string) : Outcome string := Return db_path.

Definition locked : exn :=
  mk_exn sqlite3_OperationalError "database is locked"%string.

Definition connect_fails (db_path : string) : Outcome string := Raise locked.

Definition commit_ok (conn : string) : Outcome unit := Return tt.

Definition open_ok (path mode : string) : Outcome string := Return path.

Definition not_found : exn := mk_exn OSError "No such file or directory"%string.

Definition open_fails (path mode : string) : Outcome string :=
  Raise not_found.

Definition get_ok (session : nat) (url : string) : Outcome string :=
  Return url.

Definition invalid_url : exn :=
  mk_exn aiohttp_InvalidUrlClientError "/data"%string.

Definition get_fails (session : nat) (url : string) : Outcome string :=
  Raise invalid_url.

(** A failure of the block that is no database error. *)
Definition bad_value : exn := mk_exn ValueError "bad value"%string.

End Fixtures.

(* ================================================================= *)
(** * Properties *)

Import Decorators ContextManager.

(** Unfolding the monad. *)
Ltac py_unfold :=
  unfold bind, ret, raise, try_except, try_finally, when, emit, on_data,
    modify, get, raise_obj, if_truthy in *.

(* ================================================================= *)
(** ** [retry] *)

Section RetryFacts.

Local Open Scope Z_scope.

Variables (Args R S Delay : Type).
Variable sleep : Delay -> Outcome unit.
Variables (tries : Z) (delay : Delay).
Variable func : Args -> S -> Outcome R * S.
Variable args : Args.

Lemma attempts_return : forall attempt todo last s tr v s',
  func args s = (Return v, s') ->
  attempts sleep tries delay func args (attempt :: todo) last (s, tr)
  = (Return v, (s', tr ++ [Call args])).
Proof.
  intros attempt todo last s tr v s' Hf.
  cbn [attempts]. unfold call. py_unfold. cbn. rewrite Hf. reflexivity.
Qed.

Lemma attempts_not_caught : forall attempt todo last s tr e s',
  func args s = (Raise e, s') ->
  isinstance e Exception = false ->
  attempts sleep tries delay func args (attempt :: todo) last (s, tr)
  = (Raise e, (s', tr ++ [Call args])).
Proof.
  intros attempt todo last s tr e s' Hf He.
  cbn [attempts]. unfold call. py_unfold. cbn. rewrite Hf, He. reflexivity.
Qed.

(** A caught failure: the report, then the wait unless this is the final
    attempt, then the next attempt unless [sleep] raises. *)
Lemma attempts_caught_any : forall attempt todo last s tr e s',
  func args s = (Raise e, s') ->
  isinstance e Exception = true ->
  attempts sleep tries delay func args (attempt :: todo) last (s, tr)
  = if attempt <? tries - 1 then
      match sleep delay with
      | Return _ =>
          attempts sleep tries delay func args todo (Some e)
            (s', tr ++ [Call args;
                        PrintFailed
                          (mk_AttemptFailed (attempt + 1) tries (exn_msg e));
                        Sleep delay])
      | Raise es =>
          (Raise es,
           (s', tr ++ [Call args;
                       PrintFailed
                         (mk_AttemptFailed (attempt + 1) tries (exn_msg e));
                       Sleep delay]))
      end
    else
      attempts sleep tries delay func args todo (Some e)
        (s', tr ++ [Call args;
                    PrintFailed
                      (mk_AttemptFailed (attempt + 1) tries (exn_msg e))]).
Proof.
  intros attempt todo last s tr e s' Hf He.
  cbn [attempts]. unfold call. py_unfold. cbn. rewrite Hf, He.
  destruct (attempt <? tries - 1); cbn; [|now rewrite <- app_assoc].
  destruct (sleep delay) as [[]|es]; cbn; rewrite <- !app_assoc; reflexivity.
Qed.

(** From here on [time.sleep] accepts the delay. *)
Hypothesis sleep_ok : sleep delay = Return tt.

Lemma attempts_caught : forall attempt todo last s tr e s',
  func args s = (Raise e, s') ->
  isinstance e Exception = true ->
  attempts sleep tries delay func args (attempt :: todo) last (s, tr)
  = attempts sleep tries delay func args todo (Some e)
      (s', tr ++ [Call args;
                  PrintFailed
                    (mk_AttemptFailed (attempt + 1) tries (exn_msg e))]
              ++ (if attempt <? tries - 1 then [Sleep delay] else [])).
Proof.
  intros attempt todo last s tr e s' Hf He.
  erewrite attempts_caught_any by eassumption. rewrite sleep_ok.
  destruct (attempt <? tries - 1); cbn; rewrite <- ?app_assoc; reflexivity.
Qed.

(** Some attempt succeeds after the failures [es]. *)
Lemma attempts_run_success : forall es a n last s0 s tr v s',
  fails_run func args s0 es s ->
  func args s = (Return v, s') ->
  (List.length es < n)%nat ->
  Z.of_nat a + Z.of_nat n <= tries ->
  attempts sleep tries delay func args (map Z.of_nat (seq a n)) last (s0, tr)
  = (Return v,
     (s', tr ++ waited_failures tries delay args (Z.of_nat a) es
             ++ [Call args])).
Proof.
  induction es as [|e es IH]; intros a n last s0 s tr v s' Hrun Hok Hlen Hle;
    (destruct n as [|n]; cbn [List.length] in Hlen; [lia|]);
    inversion Hrun; subst; cbn [seq map].
  - now apply attempts_return.
  - erewrite attempts_caught by eassumption.
    replace (Z.of_nat a <? tries - 1) with true
      by (symmetry; apply Z.ltb_lt; lia).
    erewrite IH; [|eassumption|eassumption|lia|lia].
    cbn [waited_failures]. rewrite Nat2Z.inj_succ, <- Z.add_1_r.
    now rewrite <- !app_assoc.
Qed.

(** An attempt raises what the [except] clause does not catch. *)
Lemma attempts_run_uncaught : forall es a n last s0 s tr e s',
  fails_run func args s0 es s ->
  func args s = (Raise e, s') ->
  isinstance e Exception = false ->
  (List.length es < n)%nat ->
  Z.of_nat a + Z.of_nat n <= tries ->
  attempts sleep tries delay func args (map Z.of_nat (seq a n)) last (s0, tr)
  = (Raise e,
     (s', tr ++ waited_failures tries delay args (Z.of_nat a) es
             ++ [Call args])).
Proof.
  induction es as [|e0 es IH];
    intros a n last s0 s tr e s' Hrun Hf He Hlen Hle;
    (destruct n as [|n]; cbn [List.length] in Hlen; [lia|]);
    inversion Hrun; subst; cbn [seq map].
  - now apply attempts_not_caught.
  - erewrite attempts_caught by eassumption.
    replace (Z.of_nat a <? tries - 1) with true
      by (symmetry; apply Z.ltb_lt; lia).
    erewrite IH; [|eassumption|eassumption|assumption|lia|lia].
    cbn [waited_failures]. rewrite Nat2Z.inj_succ, <- Z.add_1_r.
    now rewrite <- !app_assoc.
Qed.

(** Every attempt fails: [es] on the attempts before the final one, [e] on
    the final one. *)
Lemma attempts_run_exhausted : forall es a last s0 s tr e s',
  fails_run func args s0 es s ->
  func args s = (Raise e, s') ->
  isinstance e Exception = true ->
  Z.of_nat a + Z.of_nat (List.length es) + 1 = tries ->
  attempts sleep tries delay func args
    (map Z.of_nat (seq a (Datatypes.S (List.length es)))) last (s0, tr)
  = (Raise e,
     (s', tr ++ waited_failures tries delay args (Z.of_nat a) es
             ++ [Call args;
                 PrintFailed (mk_AttemptFailed tries tries (exn_msg e))])).
Proof.
  induction es as [|e0 es IH]; intros a last s0 s tr e s' Hrun Hf He;
    inversion Hrun; subst; intros Hlen; cbn [List.length] in Hlen.
  - cbn [List.length seq map]. erewrite attempts_caught by eassumption.
    replace (Z.of_nat a <? tries - 1) with false
      by (symmetry; apply Z.ltb_ge; lia).
    cbn. replace (Z.of_nat a + 1) with tries by lia.
    rewrite ?app_nil_r. reflexivity.
  - cbn [List.length]. remember (Datatypes.S (List.length es)) as n.
    cbn [seq map]. erewrite attempts_caught by eassumption.
    replace (Z.of_nat a <? tries - 1) with true
      by (symmetry; apply Z.ltb_lt; lia).
    subst n. erewrite IH; [|eassumption|eassumption|assumption|lia].
    cbn [waited_failures]. rewrite Nat2Z.inj_succ, <- Z.add_1_r.
    now rewrite <- !app_assoc.
Qed.

Lemma calls_app : forall tr1 tr2 : list (RetryEvent Args Delay),
  calls (tr1 ++ tr2) = (calls tr1 + calls tr2)%nat.
Proof.
  intros. unfold calls. now rewrite filter_app, length_app.
Qed.

Lemma sleeps_app : forall tr1 tr2 : list (RetryEvent Args Delay),
  sleeps (tr1 ++ tr2) = sleeps tr1 ++ sleeps tr2.
Proof.
  intros. unfold sleeps. now rewrite flat_map_app.
Qed.

Lemma calls_waited_failures : forall es attempt,
  calls (waited_failures tries delay args attempt es) = List.length es.
Proof.
  induction es as [|e es IH]; intros attempt; [reflexivity|].
  cbn [waited_failures]. rewrite calls_app, IH. reflexivity.
Qed.

Lemma sleeps_waited_failures : forall es attempt,
  sleeps (waited_failures tries delay args attempt es)
  = repeat delay (List.length es).
Proof.
  induction es as [|e es IH]; intros attempt; [reflexivity|].
  cbn [waited_failures]. rewrite sleeps_app, IH. reflexivity.
Qed.

Lemma prints_app : forall tr1 tr2 : list (RetryEvent Args Delay),
  prints (tr1 ++ tr2) = prints tr1 ++ prints tr2.
Proof.
  intros. unfold prints. now rewrite flat_map_app.
Qed.

Lemma prints_waited_failures : forall es attempt,
  map af_error (prints (waited_failures tries delay args attempt es))
  = map exn_msg es.
Proof.
  induction es as [|e es IH]; intros attempt; [reflexivity|].
  cbn [waited_failures]. rewrite prints_app, map_app, IH. reflexivity.
Qed.

End RetryFacts.

(** C10.  With [tries = 0] the wrapper never calls the underlying callable
    and never returns: whatever the callable, the arguments and the state,
    it raises the [TypeError] of [raise None] ([last_exception] is still
    [None]) and leaves the state and the trace as they were. *)
Theorem retry_zero_tries :
  forall (Args R S Delay : Type) (sleep : Delay -> Outcome unit)
         (delay : Delay)
         (func : Args -> S -> Outcome R * S) (args : Args)
         (st : RetrySt Args S Delay),
    retry sleep 0 delay func args st = (Raise raise_None, st)
    /\ isinstance raise_None TypeError = true.
Proof.
  intros. split; reflexivity.
Qed.

(** C4 (as amended).  With [tries = 3] and [delay = 0]: a callable that
    raises instances of [Exception] on its first two invocations and returns
    on the third makes the wrapped call return that value after exactly three
    invocations; a callable that raises an instance of [Exception] on every
    invocation makes the wrapped call raise the exception of the third
    invocation after exactly three invocations. *)
Theorem retry_three_tries :
  forall (Args R S : Type) (func : Args -> S -> Outcome R * S) (args : Args)
         (s0 : S),
    (forall e1 s1 e2 s2 v s3,
        func args s0 = (Raise e1, s1) -> isinstance e1 Exception = true ->
        func args s1 = (Raise e2, s2) -> isinstance e2 Exception = true ->
        func args s2 = (Return v, s3) ->
        exists tr,
          retry time_sleep_int 3 0%Z func args (s0, []) = (Return v, (s3, tr))
          /\ calls tr = 3)
    /\ ((forall s, exists e s',
            func args s = (Raise e, s') /\ isinstance e Exception = true) ->
        exists e1 s1 e2 s2 e3 s3 tr,
          func args s0 = (Raise e1, s1)
          /\ func args s1 = (Raise e2, s2)
          /\ func args s2 = (Raise e3, s3)
          /\ retry time_sleep_int 3 0%Z func args (s0, [])
             = (Raise e3, (s3, tr))
          /\ calls tr = 3).
Proof.
  intros Args R S func args s0. split.
  - intros e1 s1 e2 s2 v s3 H1 E1 H2 E2 H3. eexists. split.
    + unfold retry. change (range 3) with (map Z.of_nat (seq 0 3)).
      eapply attempts_run_success with (es := [e1; e2]);
        [ reflexivity
        | repeat (econstructor; try eassumption)
        | eassumption | cbn; lia | cbn; lia ].
    + reflexivity.
  - intros Hfail.
    destruct (Hfail s0) as (e1 & s1 & H1 & E1).
    destruct (Hfail s1) as (e2 & s2 & H2 & E2).
    destruct (Hfail s2) as (e3 & s3 & H3 & E3).
    exists e1, s1, e2, s2, e3, s3. eexists.
    repeat (split; [eassumption|]). split.
    + unfold retry. change (range 3) with (map Z.of_nat (seq 0 3)).
      eapply attempts_run_exhausted with (es := [e1; e2]);
        [ reflexivity
        | repeat (econstructor; try eassumption)
        | eassumption | assumption | cbn; lia ].
    + reflexivity.
Qed.

Lemma retry_three_tries_witness :
  (exists tr,
      retry time_sleep_int 3 0%Z
        (Fixtures.flaky 2 Fixtures.random_error 27%Z) tt
        (0, []) = (Return 27%Z, (3, tr))
      /\ calls tr = 3)
  /\ (exists e1 s1 e2 s2 e3 s3 tr,
        Fixtures.failing (R := Z) Fixtures.random_error tt 0
        = (Raise e1, s1)
        /\ Fixtures.failing (R := Z) Fixtures.random_error tt s1
           = (Raise e2, s2)
        /\ Fixtures.failing (R := Z) Fixtures.random_error tt s2
           = (Raise e3, s3)
        /\ retry time_sleep_int 3 0%Z
             (Fixtures.failing (R := Z) Fixtures.random_error) tt
             (0, []) = (Raise e3, (s3, tr))
        /\ calls tr = 3).
Proof.
  split.
  - apply (proj1 (retry_three_tries
                    (Fixtures.flaky 2 Fixtures.random_error 27%Z) tt 0)
             Fixtures.random_error 1 Fixtures.random_error 2);
      reflexivity.
  - apply (proj2 (retry_three_tries
                    (Fixtures.failing (R := Z) Fixtures.random_error) tt 0)).
    intros s. exists Fixtures.random_error, (Datatypes.S s).
    split; reflexivity.
Defined.

(** C4 as stated fails: the callable below fails on its first two
    invocations and succeeds on the third, yet the wrapped call raises after
    a single invocation, because a [KeyboardInterrupt] is no instance of
    [Exception] and passes the [except] clause. *)
Lemma retry_three_tries_counterexample :
  (Fixtures.flaky 2 Fixtures.interrupt 27%Z tt 0
   = (Raise Fixtures.interrupt, 1)
   /\ Fixtures.flaky 2 Fixtures.interrupt 27%Z tt 1
      = (Raise Fixtures.interrupt, 2)
   /\ Fixtures.flaky 2 Fixtures.interrupt 27%Z tt 2 = (Return 27%Z, 3))
  /\ retry time_sleep_int 3 0%Z (Fixtures.flaky 2 Fixtures.interrupt 27%Z)
       tt (0, [])
     = (Raise Fixtures.interrupt, (1, [Call tt]))
  /\ ~ (exists tr s,
          retry time_sleep_int 3 0%Z
            (Fixtures.flaky 2 Fixtures.interrupt 27%Z) tt (0, [])
          = (Return 27%Z, (s, tr))
          /\ calls tr = 3).
Proof.
  repeat split.
  intros (tr & s & H & _). discriminate H.
Qed.

(** C5 (as amended).  For any [tries] and any [delay] that [time.sleep]
    accepts, let the first attempts raise the exceptions [es], all instances
    of [Exception].  If the next attempt returns before [tries] is used up,
    its value is returned at once: no attempt follows it, and each earlier
    failure was reported and followed by one wait of [delay].  If one more
    attempt, the [tries]-th, raises an instance of [Exception] too, that
    exception alone is raised to the caller; every failure was reported, and
    each but the final one was followed by one wait of [delay].  An attempt
    that raises anything else ends the run: that exception goes to the caller
    unreported, with no wait and no further attempt. *)
Theorem retry_runs :
  forall (Args R S Delay : Type) (sleep : Delay -> Outcome unit)
         (tries : Z) (delay : Delay)
         (func : Args -> S -> Outcome R * S) (args : Args)
         (es : list exn) (s0 s : S),
    sleep delay = Return tt ->
    fails_run func args s0 es s ->
    (forall v s',
        (Z.of_nat (List.length es) < tries)%Z ->
        func args s = (Return v, s') ->
        retry sleep tries delay func args (s0, [])
        = (Return v,
           (s', waited_failures tries delay args 0 es ++ [Call args]))
        /\ calls (waited_failures tries delay args 0 es ++ [Call args])
           = Datatypes.S (List.length es)
        /\ sleeps (waited_failures tries delay args 0 es ++ [Call args])
           = repeat delay (List.length es))
    /\ (forall e s',
        (Z.of_nat (List.length es) + 1 = tries)%Z ->
        func args s = (Raise e, s') ->
        isinstance e Exception = true ->
        let tr := waited_failures tries delay args 0 es
                  ++ [Call args;
                      PrintFailed (mk_AttemptFailed tries tries (exn_msg e))] in
        retry sleep tries delay func args (s0, []) = (Raise e, (s', tr))
        /\ calls tr = Z.to_nat tries
        /\ sleeps tr = repeat delay (Z.to_nat tries - 1)
        /\ map af_error (prints tr) = map exn_msg (es ++ [e]))
    /\ (forall e s',
        (Z.of_nat (List.length es) < tries)%Z ->
        func args s = (Raise e, s') ->
        isinstance e Exception = false ->
        retry sleep tries delay func args (s0, [])
        = (Raise e,
           (s', waited_failures tries delay args 0 es ++ [Call args]))).
Proof.
  intros Args R S Delay sleep tries delay func args es s0 s Hsleep Hrun.
  split; [|split].
  - intros v s' Hlt Hok. split; [|split].
    + unfold retry, range.
      apply (@attempts_run_success Args R S Delay sleep tries delay func args
               Hsleep es 0%nat (Z.to_nat tries) None s0 s [] v s' Hrun Hok);
        lia.
    + rewrite calls_app, calls_waited_failures. cbn. lia.
    + rewrite sleeps_app, sleeps_waited_failures. cbn. apply app_nil_r.
  - intros e s' Hlen Hf He tr. subst tr. split; [|split; [|split]].
    + unfold retry, range.
      replace (Z.to_nat tries) with (Datatypes.S (List.length es)) by lia.
      apply (@attempts_run_exhausted Args R S Delay sleep tries delay func
               args Hsleep es 0%nat None s0 s [] e s' Hrun Hf He). lia.
    + rewrite calls_app, calls_waited_failures. cbn. lia.
    + rewrite sleeps_app, sleeps_waited_failures. cbn. rewrite app_nil_r.
      f_equal. lia.
    + rewrite prints_app, !map_app, prints_waited_failures. reflexivity.
  - intros e s' Hlt Hf He. unfold retry, range.
    apply (@attempts_run_uncaught Args R S Delay sleep tries delay func args
             Hsleep es 0%nat (Z.to_nat tries) None s0 s [] e s' Hrun Hf He);
      lia.
Qed.

Lemma retry_runs_witness :
  (retry time_sleep_int 5 2%Z (Fixtures.flaky 2 Fixtures.random_error 27%Z)
     tt (0, [])
   = (Return 27%Z,
      (3, waited_failures 5 2%Z tt 0
            [Fixtures.random_error; Fixtures.random_error] ++ [Call tt]))
   /\ calls (waited_failures 5 2%Z tt 0
              [Fixtures.random_error; Fixtures.random_error] ++ [Call tt])
      = 3
   /\ sleeps (waited_failures 5 2%Z tt 0
               [Fixtures.random_error; Fixtures.random_error] ++ [Call tt])
      = [2%Z; 2%Z])
  /\ (retry time_sleep_int 3 2%Z
        (Fixtures.flaky 3 Fixtures.random_error 27%Z) tt (0, [])
      = (Raise Fixtures.random_error,
         (3, [Call tt;
              PrintFailed
                (mk_AttemptFailed 1 3 (exn_msg Fixtures.random_error));
              Sleep 2%Z;
              Call tt;
              PrintFailed
                (mk_AttemptFailed 2 3 (exn_msg Fixtures.random_error));
              Sleep 2%Z;
              Call tt;
              PrintFailed
                (mk_AttemptFailed 3 3 (exn_msg Fixtures.random_error))
             ])))
  /\ (retry time_sleep_int 3 2%Z (Fixtures.flaky 1 Fixtures.interrupt 27%Z)
        tt (0, [])
      = (Raise Fixtures.interrupt, (1, [Call tt]))).
Proof.
  assert (Hsleep : time_sleep_int 2 = Return tt) by reflexivity.
  assert (Hrun : fails_run (Fixtures.flaky 2 Fixtures.random_error 27%Z) tt
                   0 [Fixtures.random_error; Fixtures.random_error] 2)
    by (repeat (econstructor; try reflexivity)).
  assert (Hrun' : fails_run (Fixtures.flaky 3 Fixtures.random_error 27%Z) tt
                    0 [Fixtures.random_error; Fixtures.random_error] 2)
    by (repeat (econstructor; try reflexivity)).
  split; [|split].
  - apply (proj1 (retry_runs time_sleep_int 5 2%Z Hsleep Hrun) 27%Z 3);
      [cbn; lia | reflexivity].
  - apply (proj1 (proj2 (retry_runs time_sleep_int 3 2%Z Hsleep Hrun'))
             Fixtures.random_error 3);
      [cbn; lia | reflexivity | reflexivity].
  - apply (proj2 (proj2 (retry_runs time_sleep_int 3 2%Z Hsleep
                           (fails_nil (Fixtures.flaky 1 Fixtures.interrupt
                                         27%Z) tt 0)))
             Fixtures.interrupt 1);
      [cbn; lia | reflexivity | reflexivity].
Defined.

(** C5 as stated fails in two ways.  With [tries = 2] the first attempt
    below fails and the second would succeed, but the failure is a
    [KeyboardInterrupt]: it is neither reported nor followed by a wait, and
    no second attempt is made.  And with a negative delay the first failure,
    an ordinary [ValueError], is reported, but [time.sleep] then raises: its
    own [ValueError] goes to the caller and the second attempt, which would
    succeed, is never made. *)
Lemma retry_runs_counterexample :
  ((Fixtures.flaky 1 Fixtures.interrupt 27%Z tt 0
    = (Raise Fixtures.interrupt, 1)
    /\ Fixtures.flaky 1 Fixtures.interrupt 27%Z tt 1 = (Return 27%Z, 2))
   /\ retry time_sleep_int 2 5%Z (Fixtures.flaky 1 Fixtures.interrupt 27%Z)
        tt (0, [])
      = (Raise Fixtures.interrupt, (1, [Call tt]))
   /\ retry time_sleep_int 2 5%Z (Fixtures.flaky 1 Fixtures.interrupt 27%Z)
        tt (0, [])
      <> (Return 27%Z,
          (2, [Call tt;
               PrintFailed
                 (mk_AttemptFailed 1 2 (exn_msg Fixtures.interrupt));
               Sleep 5%Z;
               Call tt])))
  /\ ((Fixtures.flaky 1 Fixtures.random_error 27%Z tt 0
       = (Raise Fixtures.random_error, 1)
       /\ Fixtures.flaky 1 Fixtures.random_error 27%Z tt 1
          = (Return 27%Z, 2))
      /\ retry time_sleep_int 3 (-1)%Z
           (Fixtures.flaky 1 Fixtures.random_error 27%Z) tt (0, [])
         = (Raise negative_sleep,
            (1, [Call tt;
                 PrintFailed
                   (mk_AttemptFailed 1 3 (exn_msg Fixtures.random_error));
                 Sleep (-1)%Z]))
      /\ retry time_sleep_int 3 (-1)%Z
           (Fixtures.flaky 1 Fixtures.random_error 27%Z) tt (0, [])
         <> (Return 27%Z,
             (2, [Call tt;
                  PrintFailed
                    (mk_AttemptFailed 1 3 (exn_msg Fixtures.random_error));
                  Sleep (-1)%Z;
                  Call tt]))).
Proof.
  repeat split; discriminate.
Qed.

(* ================================================================= *)
(** ** [log] *)

(** C6.  One invocation of the wrapper writes the start line (name and
    arguments) once and before the coroutine runs; when the coroutine
    returns, the wrapper writes the result line once, after it, and returns
    the same value; when the coroutine raises, the same exception reaches the
    caller and no result line is written. *)
Theorem log_reports_once :
  forall (Args R S : Type) (name : string)
         (coroutine : Args -> S -> Outcome R * S) (args : Args) (s : S),
    (forall v s',
        coroutine args s = (Return v, s') ->
        log name coroutine args (s, [])
        = (Return v,
           (s', [PrintStarting name args; Await args; PrintResult v])))
    /\ (forall e s',
          coroutine args s = (Raise e, s') ->
          log name coroutine args (s, [])
          = (Raise e, (s', [PrintStarting name args; Await args]))).
Proof.
  intros Args R S name coroutine args s.
  split; intros x s' H; unfold log; py_unfold; cbn; rewrite H; reflexivity.
Qed.

Lemma log_reports_once_witness :
  log "cube" Fixtures.cube 3%Z (0, [])
  = (Return 27%Z,
     (1, [PrintStarting "cube" 3%Z; Await 3%Z; PrintResult 27%Z]))
  /\ log "cube" (Fixtures.broken Fixtures.interrupt) 3%Z (0, [])
     = (Raise Fixtures.interrupt,
        (1, [PrintStarting "cube" 3%Z; Await 3%Z])).
Proof.
  split.
  - apply (proj1 (log_reports_once "cube" Fixtures.cube 3%Z 0) 27%Z 1).
    reflexivity.
  - apply (proj2 (log_reports_once "cube"
                    (Fixtures.broken Fixtures.interrupt) 3%Z 0)
             Fixtures.interrupt 1).
    reflexivity.
Defined.

(* ================================================================= *)
(** ** [db_connection] *)

Section DbFacts.

Variable Connection : Type.
Variable sqlite3_connect : string -> Outcome Connection.
Variable sqlite3_commit : Connection -> Outcome unit.
Variables (db_path : string) (block : Connection -> Outcome unit).

(** The run of [db_connection] when the connection is made: the outcome of
    the block decides among commit, rollback and neither, and the close
    comes last. *)
Lemma db_connection_connected : forall c,
  sqlite3_connect db_path = Return c ->
  db_connection sqlite3_connect sqlite3_commit db_path block (None, [])
  = match block c with
    | Return _ =>
        match sqlite3_commit c with
        | Return _ =>
            (Return tt,
             (Some c, [Connect db_path; DbYield c; Commit c; Close c]))
        | Raise e =>
            (Raise e,
             (Some c,
              [Connect db_path; DbYield c; Commit c]
              ++ (if isinstance e sqlite3_Error then [Rollback c] else [])
              ++ [Close c]))
        end
    | Raise e =>
        (Raise e,
         (Some c,
          [Connect db_path; DbYield c]
          ++ (if isinstance e sqlite3_Error then [Rollback c] else [])
          ++ [Close c]))
    end.
Proof.
  intros c Hc. unfold db_connection, set_conn, get_conn. py_unfold. cbn.
  rewrite Hc. cbn.
  destruct (block c) as [[]|e]; cbn.
  - destruct (sqlite3_commit c) as [[]|e]; cbn; [reflexivity|].
    destruct (isinstance e sqlite3_Error); reflexivity.
  - destruct (isinstance e sqlite3_Error); reflexivity.
Qed.

Lemma db_connection_not_connected : forall e,
  sqlite3_connect db_path = Raise e ->
  db_connection sqlite3_connect sqlite3_commit db_path block (None, [])
  = (Raise e, (None, [Connect db_path])).
Proof.
  intros e He. unfold db_connection, set_conn, get_conn. py_unfold. cbn.
  rewrite He. cbn. destruct (isinstance e sqlite3_Error); reflexivity.
Qed.

End DbFacts.

(** C2 (as amended).  When the block raises an instance of [sqlite3.Error],
    the manager rolls back, then closes the connection, and the same
    exception reaches the caller; when the block raises anything else, the
    manager closes the connection without a rollback and the same exception
    reaches the caller. *)
Theorem db_connection_block_raises :
  forall (Connection : Type)
         (sqlite3_connect : string -> Outcome Connection)
         (sqlite3_commit : Connection -> Outcome unit)
         (db_path : string) (block : Connection -> Outcome unit)
         (c : Connection) (e : exn),
    sqlite3_connect db_path = Return c ->
    block c = Raise e ->
    (isinstance e sqlite3_Error = true ->
     db_connection sqlite3_connect sqlite3_commit db_path block (None, [])
     = (Raise e,
        (Some c, [Connect db_path; DbYield c; Rollback c; Close c])))
    /\ (isinstance e sqlite3_Error = false ->
        db_connection sqlite3_connect sqlite3_commit db_path block (None, [])
        = (Raise e, (Some c, [Connect db_path; DbYield c; Close c]))).
Proof.
  intros Connection connect commit db_path block c e Hc Hb.
  rewrite (db_connection_connected connect commit db_path block Hc), Hb.
  split; intros ->; reflexivity.
Qed.

Lemma db_connection_block_raises_witness :
  db_connection Fixtures.connect_ok Fixtures.commit_ok "test.db"
    (fun _ => Raise Fixtures.locked) (None, [])
  = (Raise Fixtures.locked,
     (Some "test.db"%string,
      [Connect "test.db"; DbYield "test.db"%string;
       Rollback "test.db"%string; Close "test.db"%string]))
  /\ db_connection Fixtures.connect_ok Fixtures.commit_ok "test.db"
       (fun _ => Raise Fixtures.bad_value) (None, [])
     = (Raise Fixtures.bad_value,
        (Some "test.db"%string,
         [Connect "test.db"; DbYield "test.db"%string;
          Close "test.db"%string])).
Proof.
  split.
  - apply (proj1 (db_connection_block_raises Fixtures.connect_ok
                    Fixtures.commit_ok "test.db"
                    (fun _ => Raise Fixtures.locked)
                    (c := "test.db"%string) eq_refl eq_refl)).
    reflexivity.
  - apply (proj2 (db_connection_block_raises Fixtures.connect_ok
                    Fixtures.commit_ok "test.db"
                    (fun _ => Raise Fixtures.bad_value)
                    (c := "test.db"%string) eq_refl eq_refl)).
    reflexivity.
Defined.

(** C2 as stated fails: a block that raises a [ValueError] leaves no
    rollback on the trace; the connection is closed and the exception
    re-raised all the same. *)
Lemma db_connection_block_raises_counterexample :
  db_connection Fixtures.connect_ok Fixtures.commit_ok "test.db"
    (fun _ => Raise Fixtures.bad_value) (None, [])
  = (Raise Fixtures.bad_value,
     (Some "test.db"%string,
      [Connect "test.db"; DbYield "test.db"%string; Close "test.db"%string]))
  /\ ~ In (Rollback "test.db"%string)
         (snd (snd (db_connection Fixtures.connect_ok Fixtures.commit_ok
                      "test.db" (fun _ => Raise Fixtures.bad_value)
                      (None, [])))).
Proof.
  split; [reflexivity|].
  cbn. intros [H|[H|[H|[]]]]; discriminate H.
Qed.

(* ================================================================= *)
(** ** [open_file] *)

(** C8.  Once the file is open, the manager closes it exactly once, after
    the block, and the outcome of the block (normal or an exception) is the
    outcome of the whole statement. *)
Theorem open_file_closes_once :
  forall (File : Type) (open : string -> string -> Outcome File)
         (path mode : string) (block : File -> Outcome unit) (f : File),
    open path mode = Return f ->
    open_file open path mode block (None, [])
    = (block f, (Some f, [Open path mode; FileYield f; FileClose f]))
    /\ file_closes
         (snd (snd (open_file open path mode block (None, [])))) = 1.
Proof.
  intros File open path mode block f Hf.
  assert (H : open_file open path mode block (None, [])
              = (block f,
                 (Some f, [Open path mode; FileYield f; FileClose f]))).
  { unfold open_file. py_unfold. cbn. rewrite Hf. cbn.
    destruct (block f) as [[]|e]; reflexivity. }
  rewrite H. split; reflexivity.
Qed.

Lemma open_file_closes_once_witness :
  (open_file Fixtures.open_ok "test.txt" "w" (fun _ => Return tt) (None, [])
   = (Return tt,
      (Some "test.txt"%string,
       [Open "test.txt" "w"; FileYield "test.txt"%string;
        FileClose "test.txt"%string]))
   /\ file_closes
        (snd (snd (open_file Fixtures.open_ok "test.txt" "w"
                     (fun _ => Return tt) (None, [])))) = 1)
  /\ (open_file Fixtures.open_ok "test.txt" "w"
        (fun _ => Raise Fixtures.bad_value) (None, [])
      = (Raise Fixtures.bad_value,
         (Some "test.txt"%string,
          [Open "test.txt" "w"; FileYield "test.txt"%string;
           FileClose "test.txt"%string]))
      /\ file_closes
           (snd (snd (open_file Fixtures.open_ok "test.txt" "w"
                        (fun _ => Raise Fixtures.bad_value) (None, []))))
         = 1).
Proof.
  split.
  - apply (open_file_closes_once Fixtures.open_ok "test.txt" "w"
             (fun _ => Return tt) (f := "test.txt"%string)).
    reflexivity.
  - apply (open_file_closes_once Fixtures.open_ok "test.txt" "w"
             (fun _ => Raise Fixtures.bad_value) (f := "test.txt"%string)).
    reflexivity.
Defined.

(** C9.  When [sqlite3.connect] raises, [db_connection] passes the
    exception on and neither commits, rolls back nor closes; when [open]
    raises, [open_file] passes the exception on and closes nothing.  In both
    the local handle is still [None] and the block did not run. *)
Theorem acquisition_failure_propagates :
  (forall (Connection : Type)
          (sqlite3_connect : string -> Outcome Connection)
          (sqlite3_commit : Connection -> Outcome unit)
          (db_path : string) (block : Connection -> Outcome unit) (e : exn),
      sqlite3_connect db_path = Raise e ->
      db_connection sqlite3_connect sqlite3_commit db_path block (None, [])
      = (Raise e, (None, [Connect db_path])))
  /\ (forall (File : Type) (open : string -> string -> Outcome File)
            (path mode : string) (block : File -> Outcome unit) (e : exn),
        open path mode = Raise e ->
        open_file open path mode block (None, [])
        = (Raise e, (None, [Open path mode]))).
Proof.
  split.
  - intros. now apply db_connection_not_connected.
  - intros File open path mode block e He.
    unfold open_file. py_unfold. cbn. rewrite He. reflexivity.
Qed.

Lemma acquisition_failure_propagates_witness :
  db_connection Fixtures.connect_fails Fixtures.commit_ok "test.db"
    (fun _ => Return tt) (None, [])
  = (Raise Fixtures.locked, (None, [Connect "test.db"]))
  /\ open_file Fixtures.open_fails "test.txt" "r" (fun _ => Return tt)
       (None, [])
     = (Raise Fixtures.not_found, (None, [Open "test.txt" "r"])).
Proof.
  split.
  - apply (proj1 acquisition_failure_propagates). reflexivity.
  - apply (proj2 acquisition_failure_propagates). reflexivity.
Defined.

(* ================================================================= *)
(** ** [async_http_client] and [AsyncWeatherFetcher] *)

Import AsyncWeatherFetcher.

(** The run of the [async with] statement once [__aenter__] has returned:
    the outcome of the block is the outcome of the statement, and
    [__aexit__] closes the response, closes the session and reports an
    exception of the block, in this order. *)
Lemma with_fetcher_entered :
  forall (Session Response : Type) (ClientSession : Session)
         (session_get : Session -> string -> Outcome Response)
         (city format : string) (r : Response) (block : Outcome unit),
    session_get ClientSession (wttr_url city format) = Return r ->
    with_fetcher ClientSession session_get city format block
    = (block,
       (mk_self city format (Some ClientSession) (Some r),
        [NewSession ClientSession;
         Get ClientSession (wttr_url city format);
         Body; ResponseClose r; SessionClose ClientSession]
        ++ match block with
           | Return _ => []
           | Raise e => [PrintError e]
           end)).
Proof.
  intros Session Response cs session_get city format r block Hr.
  unfold with_fetcher, async_with, __aenter__, __aexit__, __init__.
  py_unfold. cbn -[wttr_url]. rewrite Hr.
  destruct block as [[]|e]; reflexivity.
Qed.

(** C7.  When the block of [async_http_client] raises, the session is closed
    exactly once and the same exception reaches the caller afterwards; an
    instance of [Exception] is reported first.  The same holds for the block
    of [AsyncWeatherFetcher]: [__aexit__] closes the session exactly once and
    the exception reaches the caller. *)
Theorem async_http_client_block_raises :
  (forall (Session : Type) (ClientSession : Session) (url : string)
          (block : Session -> Outcome unit) (e : exn),
      block ClientSession = Raise e ->
      async_http_client ClientSession url block (tt, [])
      = (Raise e,
         (tt,
          [HttpNewSession ClientSession; PrintOpening url;
           HttpYield ClientSession]
          ++ (if isinstance e Exception then [PrintSessionError e] else [])
          ++ [HttpSessionClose ClientSession; PrintClosed]))
      /\ session_closes
           (snd (snd (async_http_client ClientSession url block (tt, []))))
         = 1)
  /\ (forall (Session Response : Type) (ClientSession : Session)
            (session_get : Session -> string -> Outcome Response)
            (city format : string) (r : Response) (e : exn),
        session_get ClientSession (wttr_url city format) = Return r ->
        fst (with_fetcher ClientSession session_get city format (Raise e))
        = Raise e
        /\ fetcher_session_closes
             (snd (snd (with_fetcher ClientSession session_get city format
                          (Raise e))))
           = 1).
Proof.
  split.
  - intros Session cs url block e Hb.
    assert (H : async_http_client cs url block (tt, [])
                = (Raise e,
                   (tt,
                    [HttpNewSession cs; PrintOpening url; HttpYield cs]
                    ++ (if isinstance e Exception
                        then [PrintSessionError e] else [])
                    ++ [HttpSessionClose cs; PrintClosed]))).
    { unfold async_http_client. py_unfold. cbn. rewrite Hb. cbn.
      destruct (isinstance e Exception); reflexivity. }
    rewrite H. split; [reflexivity|].
    cbn. destruct (isinstance e Exception); reflexivity.
  - intros Session Response cs session_get city format r e Hr.
    rewrite (with_fetcher_entered cs session_get city format (Raise e) Hr).
    split; reflexivity.
Qed.

Lemma async_http_client_block_raises_witness :
  (async_http_client 1%nat "https://api.example.com"
     (fun _ => Raise Fixtures.invalid_url) (tt, [])
   = (Raise Fixtures.invalid_url,
      (tt,
       [HttpNewSession 1%nat; PrintOpening "https://api.example.com";
        HttpYield 1%nat; PrintSessionError Fixtures.invalid_url;
        HttpSessionClose 1%nat; PrintClosed]))
   /\ session_closes
        (snd (snd (async_http_client 1%nat "https://api.example.com"
                     (fun _ => Raise Fixtures.invalid_url) (tt, []))))
      = 1)
  /\ (fst (with_fetcher 1%nat Fixtures.get_ok "Paris" "%C+%t+%w+%h"
             (Raise Fixtures.bad_value))
      = Raise Fixtures.bad_value
      /\ fetcher_session_closes
           (snd (snd (with_fetcher 1%nat Fixtures.get_ok "Paris"
                        "%C+%t+%w+%h" (Raise Fixtures.bad_value))))
         = 1).
Proof.
  split.
  - apply (proj1 async_http_client_block_raises nat 1%nat
             "https://api.example.com"%string
             (fun _ => Raise Fixtures.invalid_url)).
    reflexivity.
  - apply (proj2 async_http_client_block_raises nat string 1%nat
             Fixtures.get_ok "Paris"%string "%C+%t+%w+%h"%string
             (wttr_url "Paris" "%C+%t+%w+%h")).
    reflexivity.
Defined.

(** X19.  Once [__aenter__] has returned, the response and the session are
    closed on both ways out of the block, the response first; when the block
    raises, the failure is reported after both are closed and the same
    exception reaches the caller. *)
Theorem with_fetcher_releases :
  forall (Session Response : Type) (ClientSession : Session)
         (session_get : Session -> string -> Outcome Response)
         (city format : string) (r : Response),
    session_get ClientSession (wttr_url city format) = Return r ->
    with_fetcher ClientSession session_get city format (Return tt)
    = (Return tt,
       (mk_self city format (Some ClientSession) (Some r),
        [NewSession ClientSession;
         Get ClientSession (wttr_url city format);
         Body; ResponseClose r; SessionClose ClientSession]))
    /\ (forall e,
          with_fetcher ClientSession session_get city format (Raise e)
          = (Raise e,
             (mk_self city format (Some ClientSession) (Some r),
              [NewSession ClientSession;
               Get ClientSession (wttr_url city format);
               Body; ResponseClose r; SessionClose ClientSession;
               PrintError e]))).
Proof.
  intros Session Response cs session_get city format r Hr.
  split; [|intros e];
    now rewrite (with_fetcher_entered cs session_get city format _ Hr).
Qed.

Lemma with_fetcher_releases_witness :
  with_fetcher 1%nat Fixtures.get_ok "Paris" "%C+%t+%w+%h" (Return tt)
  = (Return tt,
     (mk_self "Paris" "%C+%t+%w+%h" (Some 1%nat)
        (Some (wttr_url "Paris" "%C+%t+%w+%h")),
      [NewSession 1%nat; Get 1%nat (wttr_url "Paris" "%C+%t+%w+%h");
       Body; ResponseClose (wttr_url "Paris" "%C+%t+%w+%h");
       SessionClose 1%nat]))
  /\ (forall e,
        with_fetcher 1%nat Fixtures.get_ok "Paris" "%C+%t+%w+%h" (Raise e)
        = (Raise e,
           (mk_self "Paris" "%C+%t+%w+%h" (Some 1%nat)
              (Some (wttr_url "Paris" "%C+%t+%w+%h")),
            [NewSession 1%nat; Get 1%nat (wttr_url "Paris" "%C+%t+%w+%h");
             Body; ResponseClose (wttr_url "Paris" "%C+%t+%w+%h");
             SessionClose 1%nat; PrintError e]))).
Proof.
  apply (with_fetcher_releases 1%nat Fixtures.get_ok "Paris" "%C+%t+%w+%h").
  reflexivity.
Defined.

(** C3.  The defect behind the claim: when the request of [__aenter__]
    raises, the [async with] statement does not await [__aexit__], so the
    session [__aenter__] has just created and stored is never closed,
    nothing is reported, the block does not run, and the exception goes to
    the caller with the open session still in the object.  The guards of
    [__aexit__] are written for this state but are not reached. *)
Theorem with_fetcher_leaks_session :
  forall (Session Response : Type) (ClientSession : Session)
         (session_get : Session -> string -> Outcome Response)
         (city format : string) (block : Outcome unit) (e : exn),
    session_get ClientSession (wttr_url city format) = Raise e ->
    with_fetcher ClientSession session_get city format block
    = (Raise e,
       (mk_self city format (Some ClientSession) None,
        [NewSession ClientSession;
         Get ClientSession (wttr_url city format)]))
    /\ fetcher_session_closes
         (snd (snd (with_fetcher ClientSession session_get city format
                      block)))
       = 0.
Proof.
  intros Session Response cs session_get city format block e He.
  assert (H : with_fetcher cs session_get city format block
              = (Raise e,
                 (mk_self city format (Some cs) None,
                  [NewSession cs; Get cs (wttr_url city format)]))).
  { unfold with_fetcher, async_with, __aenter__, __init__.
    py_unfold. cbn -[wttr_url]. rewrite He. reflexivity. }
  rewrite H. split; reflexivity.
Qed.

Lemma with_fetcher_leaks_session_witness :
  with_fetcher 1%nat Fixtures.get_fails "Paris" "%C+%t+%w+%h" (Return tt)
  = (Raise Fixtures.invalid_url,
     (mk_self "Paris" "%C+%t+%w+%h" (Some 1%nat) None,
      [NewSession 1%nat; Get 1%nat (wttr_url "Paris" "%C+%t+%w+%h")]))
  /\ fetcher_session_closes
       (snd (snd (with_fetcher 1%nat Fixtures.get_fails "Paris"
                    "%C+%t+%w+%h" (Return tt))))
     = 0.
Proof.
  apply (with_fetcher_leaks_session 1%nat Fixtures.get_fails
           "Paris" "%C+%t+%w+%h" (Return tt) (e := Fixtures.invalid_url)).
  reflexivity.
Defined.

(* ================================================================= *)
(** ** [lru_cache] *)

Section LruFacts.

Variables (Args R S : Type).
Variable Args_eq_dec : forall a b : Args, {a = b} + {a <> b}.
Variable hashable : Args -> bool.
Variable user_function : Args -> S -> Outcome R * S.
Variable maxsize : nat.

Lemma cache_get_None : forall k (c : list (Args * R)),
  cache_get Args_eq_dec k c = None <-> ~ In k (map fst c).
Proof.
  intros k c. induction c as [|[k' v] c IH]; cbn.
  - split; [intros _ []|reflexivity].
  - destruct (Args_eq_dec k k') as [->|Hne].
    + split; [discriminate|]. intros H. exfalso. apply H. now left.
    + rewrite IH. split.
      * intros H [E|Hin]; [now apply Hne|now apply H].
      * intros H Hin. apply H. now right.
Qed.


Lemma cache_del_In : forall k kv (c : list (Args * R)),
  In kv (cache_del Args_eq_dec k c) <-> In kv c /\ fst kv <> k.
Proof.
  intros k kv c. unfold cache_del. rewrite filter_In.
  destruct (Args_eq_dec k (fst kv)) as [E|Hne].
  - split; [intros [_ H]; discriminate H|intros [_ H]; now symmetry in E].
  - split; intros [H _]; split; auto.
Qed.

Lemma cache_del_keys : forall k a (c : list (Args * R)),
  In a (map fst (cache_del Args_eq_dec k c))
  <-> In a (map fst c) /\ a <> k.
Proof.
  intros k a c. rewrite !in_map_iff. split.
  - intros ([a' v] & <- & Hin). apply cache_del_In in Hin as [Hin Hne].
    split; [now exists (a', v)|exact Hne].
  - intros (([a' v] & <- & Hin) & Hne). exists (a', v). split; [reflexivity|].
    now apply cache_del_In.
Qed.

Lemma cache_del_NoDup : forall k (c : list (Args * R)),
  NoDup (map fst c) -> NoDup (map fst (cache_del Args_eq_dec k c)).
Proof.
  intros k c. induction c as [|[k' v] c IH]; cbn; [auto|].
  intros H. inversion H as [|? ? Hnin Hnd]; subst.
  destruct (Args_eq_dec k k'); cbn; [now apply IH|].
  constructor; [|now apply IH].
  intros Hin. apply Hnin. now apply cache_del_keys in Hin as [Hin _].
Qed.



(** A hit: the entry moves to the front and nothing is executed. *)
Lemma wrapper_hit : forall a v d tr,
  hashable a = true ->
  cache_get Args_eq_dec a (cache d) = Some v ->
  lru_cache_wrapper Args_eq_dec hashable maxsize user_function a (d, tr)
  = (Return v,
     (mk_LruData (user_state d)
        ((a, v) :: cache_del Args_eq_dec a (cache d))
        (Datatypes.S (hits d)) (misses d), tr)).
Proof.
  intros a v d tr Hh H. unfold lru_cache_wrapper. py_unfold. rewrite Hh. cbn.
  rewrite H. reflexivity.
Qed.



Hypothesis user_function_returns :
  forall a s, exists v s', user_function a s = (Return v, s').



End LruFacts.





(* ================================================================= *)
(** * Further properties *)

(** ** [retry] for every callable *)

Section RetryTraces.

Local Open Scope Z_scope.

Variables (Args R S Delay : Type).
Variable sleep : Delay -> Outcome unit.
Variables (tries : Z) (delay : Delay).
Variable func : Args -> S -> Outcome R * S.
Variable args : Args.

Lemma last_app_nonempty : forall (A : Type) (l1 l2 : list A) (d : A),
  l2 <> [] -> last (l1 ++ l2) d = last l2 d.
Proof.
  intros A l1 l2 d Hne. induction l1 as [|x l1 IH]; [reflexivity|].
  cbn [app last]. destruct (l1 ++ l2) eqn:E; [|exact IH].
  apply app_eq_nil in E as [_ E]. contradiction.
Qed.

(** The reports the attempts numbered [a], ..., [a + n - 1] add to the
    trace when [a + n = tries], however [sleep] ends. *)
Lemma attempts_reports : forall n a last_exception s tr,
  Z.of_nat (a + n) = tries ->
  exists ext,
    snd (snd (attempts sleep tries delay func args (map Z.of_nat (seq a n))
                last_exception (s, tr))) = tr ++ ext
    /\ (List.length (prints ext) <= calls ext)%nat
    /\ Forall (fun l => af_tries l = tries
                        /\ Z.of_nat a < af_attempt l <= tries)
         (prints ext).
Proof.
  induction n as [|n IH]; intros a last_exception s tr Hsum.
  - exists []. cbn [seq map attempts].
    destruct last_exception; cbn; rewrite app_nil_r; repeat split; auto.
  - cbn [seq map].
    destruct (func args s) as [[v|e] s'] eqn:Hf.
    + erewrite attempts_return by eassumption. exists [Call args].
      cbn. repeat split; auto.
    + destruct (isinstance e Exception) eqn:He.
      * erewrite attempts_caught_any by eassumption.
        assert (Hnum : af_tries
                         (mk_AttemptFailed (Z.of_nat a + 1) tries (exn_msg e))
                       = tries
                       /\ Z.of_nat a
                          < af_attempt
                              (mk_AttemptFailed (Z.of_nat a + 1) tries
                                 (exn_msg e))
                          <= tries) by (cbn; lia).
        assert (Hweak : forall ext : list (RetryEvent Args Delay),
                   Forall (fun l => af_tries l = tries
                                    /\ Z.of_nat (Datatypes.S a)
                                       < af_attempt l <= tries)
                     (prints ext) ->
                   Forall (fun l => af_tries l = tries
                                    /\ Z.of_nat a < af_attempt l <= tries)
                     (prints ext)).
        { intros ext H. eapply Forall_impl; [|exact H]. cbn.
          intros l [? ?]. split; [assumption|lia]. }
        destruct (Z.of_nat a <? tries - 1);
          [destruct (sleep delay) as [[]|es]|].
        -- destruct (IH (Datatypes.S a) (Some e) s'
                       (tr ++ [Call args;
                               PrintFailed
                                 (mk_AttemptFailed (Z.of_nat a + 1) tries
                                    (exn_msg e));
                               Sleep delay]))
             as (ext & Hext & Hpc & Hpa); [lia|].
           exists ([Call args;
                    PrintFailed
                      (mk_AttemptFailed (Z.of_nat a + 1) tries (exn_msg e));
                    Sleep delay] ++ ext).
           rewrite Hext, <- app_assoc. split; [reflexivity|].
           rewrite calls_app, prints_app. cbn. split; [lia|].
           constructor; [exact Hnum|now apply Hweak].
        -- exists [Call args;
                   PrintFailed
                     (mk_AttemptFailed (Z.of_nat a + 1) tries (exn_msg e));
                   Sleep delay].
           cbn. split; [reflexivity|]. split; [lia|].
           constructor; [exact Hnum|constructor].
        -- destruct (IH (Datatypes.S a) (Some e) s'
                       (tr ++ [Call args;
                               PrintFailed
                                 (mk_AttemptFailed (Z.of_nat a + 1) tries
                                    (exn_msg e))]))
             as (ext & Hext & Hpc & Hpa); [lia|].
           exists ([Call args;
                    PrintFailed
                      (mk_AttemptFailed (Z.of_nat a + 1) tries (exn_msg e))]
                   ++ ext).
           rewrite Hext, <- app_assoc. split; [reflexivity|].
           rewrite calls_app, prints_app. cbn. split; [lia|].
           constructor; [exact Hnum|now apply Hweak].
      * erewrite attempts_not_caught by eassumption. exists [Call args].
        cbn. repeat split; auto.
Qed.

(** Calling [func] again and again from [s0], at most [n] times: the caught
    failures [es] it starts with, up to the first call that returns or
    raises what is not caught, or up to the [n]-th call. *)
Lemma fails_run_decompose : forall n s0,
  (1 <= n)%nat ->
  exists es s,
    fails_run func args s0 es s
    /\ (List.length es < n)%nat
    /\ (forall e s', func args s = (Raise e, s') ->
                     isinstance e Exception = true ->
                     Datatypes.S (List.length es) = n).
Proof.
  induction n as [|n IH]; intros s0 Hn; [lia|].
  destruct (func args s0) as [[v|e] s1] eqn:Hf.
  - exists [], s0. split; [constructor|]. split; [cbn; lia|].
    intros e s' H. congruence.
  - destruct (isinstance e Exception) eqn:He.
    + destruct n as [|n].
      * exists [], s0. split; [constructor|]. split; [cbn; lia|]. reflexivity.
      * destruct (IH s1) as (es & s & Hrun & Hlen & Hlast); [lia|].
        exists (e :: es), s. split; [econstructor; eassumption|].
        split; [cbn; lia|]. intros e' s' H H'. cbn. f_equal.
        now apply (Hlast e' s').
    + exists [], s0. split; [constructor|]. split; [cbn; lia|].
      intros e' s' H H'. congruence.
Qed.

(** From here on [time.sleep] accepts the delay. *)
Hypothesis sleep_ok : sleep delay = Return tt.

(** The run of the wrapper from [s0]: some caught failures [es], each
    reported and waited for, then one last call whose outcome is the
    wrapper's; that call is reported too when it is the [tries]-th and
    caught. *)
Lemma retry_decomposed : forall s0,
  1 <= tries ->
  exists es s,
    fails_run func args s0 es s
    /\ Z.of_nat (List.length es) < tries
    /\ func args s
       = (fst (retry sleep tries delay func args (s0, [])),
          fst (snd (retry sleep tries delay func args (s0, []))))
    /\ snd (snd (retry sleep tries delay func args (s0, [])))
       = waited_failures tries delay args 0 es
         ++ [Call args]
         ++ match fst (retry sleep tries delay func args (s0, [])) with
            | Return _ => []
            | Raise e =>
                if isinstance e Exception
                then [PrintFailed
                        (mk_AttemptFailed tries tries (exn_msg e))]
                else []
            end
    /\ (forall e, fst (retry sleep tries delay func args (s0, [])) = Raise e ->
                  isinstance e Exception = true ->
                  Z.of_nat (List.length es) + 1 = tries).
Proof.
  intros s0 Htries.
  destruct (fails_run_decompose (n := Z.to_nat tries) s0)
    as (es & s & Hrun & Hlen & Hlast); [lia|].
  exists es, s. split; [assumption|]. split; [lia|].
  unfold retry, range.
  destruct (func args s) as [[v|e] s'] eqn:Hf.
  - rewrite (@attempts_run_success Args R S Delay sleep tries delay func args
               sleep_ok es 0%nat (Z.to_nat tries) None s0 s [] v s' Hrun Hf)
      by lia.
    cbn [fst snd app]. rewrite ?app_nil_r.
    split; [reflexivity|]. split; [reflexivity|]. discriminate.
  - destruct (isinstance e Exception) eqn:He.
    + specialize (Hlast e s' eq_refl He).
      replace (Z.to_nat tries) with (Datatypes.S (List.length es)) by lia.
      rewrite (@attempts_run_exhausted Args R S Delay sleep tries delay func
                 args sleep_ok es 0%nat None s0 s [] e s' Hrun Hf He) by lia.
      cbn [fst snd app]. rewrite He. cbn [app].
      split; [reflexivity|]. split; [reflexivity|]. intros; lia.
    + rewrite (@attempts_run_uncaught Args R S Delay sleep tries delay func
                 args sleep_ok es 0%nat (Z.to_nat tries) None s0 s [] e s'
                 Hrun Hf He) by lia.
      cbn [fst snd app]. rewrite He. cbn [app]. rewrite ?app_nil_r.
      split; [reflexivity|]. split; [reflexivity|].
      intros e' [= <-] H. congruence.
Qed.

End RetryTraces.

(** X1.  With [tries] zero or negative the loop has no iteration: the
    callable is not called, nothing is printed or waited for, and the wrapper
    raises the [TypeError] of [raise None]. *)
Theorem retry_nonpositive_tries :
  forall (Args R S Delay : Type) (sleep : Delay -> Outcome unit)
         (tries : Z) (delay : Delay)
         (func : Args -> S -> Outcome R * S) (args : Args)
         (st : RetrySt Args S Delay),
    (tries <= 0)%Z ->
    retry sleep tries delay func args st = (Raise raise_None, st).
Proof.
  intros Args R S Delay sleep tries delay func args st Hle.
  unfold retry, range. destruct tries; try lia; reflexivity.
Qed.

Lemma retry_nonpositive_tries_witness :
  retry time_sleep_int (-2) 1%Z
    (Fixtures.flaky 0 Fixtures.random_error 27%Z) tt (0, [])
  = (Raise raise_None, (0, [])).
Proof.
  apply retry_nonpositive_tries. lia.
Defined.

(** X2.  Whatever the callable does, with [tries >= 1] and a delay that
    [time.sleep] accepts, the wrapper calls the callable at least once and
    at most [tries] times and waits the configured [delay] exactly once
    between two calls; and it stops before the [tries]-th call only when a
    call returned or raised what is no instance of [Exception]. *)
Theorem retry_calls_bounded :
  forall (Args R S Delay : Type) (sleep : Delay -> Outcome unit)
         (tries : Z) (delay : Delay)
         (func : Args -> S -> Outcome R * S) (args : Args) (s0 : S),
    (1 <= tries)%Z ->
    sleep delay = Return tt ->
    let r := retry sleep tries delay func args (s0, []) in
    1 <= calls (snd (snd r)) <= Z.to_nat tries
    /\ sleeps (snd (snd r)) = repeat delay (calls (snd (snd r)) - 1)
    /\ (calls (snd (snd r)) < Z.to_nat tries ->
        (exists v, fst r = Return v)
        \/ (exists e, fst r = Raise e /\ isinstance e Exception = false)).
Proof.
  intros Args R S Delay sleep tries delay func args s0 Htries Hsleep r.
  destruct (@retry_decomposed Args R S Delay sleep tries delay func args
              Hsleep s0 Htries) as (es & s & Hrun & Hlen & Hf & Htr & Hlast).
  fold r in Hf, Htr, Hlast.
  assert (Hcalls : calls (snd (snd r)) = Datatypes.S (List.length es)).
  { rewrite Htr, !calls_app, calls_waited_failures.
    destruct (fst r) as [v|e]; [|destruct (isinstance e Exception)];
      cbn; lia. }
  split; [lia|]. split.
  - rewrite Hcalls, Htr, !sleeps_app, sleeps_waited_failures.
    replace (Datatypes.S (List.length es) - 1) with (List.length es) by lia.
    destruct (fst r) as [v|e]; [|destruct (isinstance e Exception)];
      cbn; now rewrite app_nil_r.
  - intros Hearly. destruct (fst r) as [v|e] eqn:Hr; [left; now exists v|].
    right. exists e. split; [reflexivity|].
    destruct (isinstance e Exception) eqn:He; [|reflexivity].
    specialize (Hlast e eq_refl He). lia.
Qed.

Lemma retry_calls_bounded_witness :
  1 <= calls (snd (snd (retry time_sleep_int 3 1%Z
                          (Fixtures.flaky 1 Fixtures.random_error 27%Z) tt
                          (0, [])))) <= Z.to_nat 3
  /\ sleeps (snd (snd (retry time_sleep_int 3 1%Z
                         (Fixtures.flaky 1 Fixtures.random_error 27%Z) tt
                         (0, []))))
     = repeat 1%Z
         (calls (snd (snd (retry time_sleep_int 3 1%Z
                             (Fixtures.flaky 1 Fixtures.random_error 27%Z)
                             tt (0, [])))) - 1)
  /\ (calls (snd (snd (retry time_sleep_int 3 1%Z
                         (Fixtures.flaky 1 Fixtures.random_error 27%Z) tt
                         (0, [])))) < Z.to_nat 3 ->
      (exists v,
          fst (retry time_sleep_int 3 1%Z
                 (Fixtures.flaky 1 Fixtures.random_error 27%Z) tt (0, []))
          = Return v)
      \/ (exists e,
             fst (retry time_sleep_int 3 1%Z
                    (Fixtures.flaky 1 Fixtures.random_error 27%Z) tt (0, []))
             = Raise e
             /\ isinstance e Exception = false)).
Proof.
  apply (@retry_calls_bounded unit Z nat Z time_sleep_int 3 1%Z
           (Fixtures.flaky 1 Fixtures.random_error 27%Z) tt 0).
  - lia.
  - reflexivity.
Defined.

(** X3.  Whatever the callable does, with [tries >= 1] the wrapper prints
    at most one report per call, and every report shows the configured
    [tries] and an attempt number between 1 and [tries]. *)
Theorem retry_reports_numbered :
  forall (Args R S Delay : Type) (sleep : Delay -> Outcome unit)
         (tries : Z) (delay : Delay)
         (func : Args -> S -> Outcome R * S) (args : Args) (s0 : S),
    (1 <= tries)%Z ->
    let tr := snd (snd (retry sleep tries delay func args (s0, []))) in
    List.length (prints tr) <= calls tr
    /\ Forall (fun l => af_tries l = tries
                        /\ (1 <= af_attempt l <= tries)%Z)
         (prints tr).
Proof.
  intros Args R S Delay sleep tries delay func args s0 Htries tr.
  destruct (@attempts_reports Args R S Delay sleep tries delay func args
              (Z.to_nat tries) 0%nat None s0 [])
    as (ext & Hext & Hpc & Hpa); [lia|].
  subst tr. unfold retry, range. rewrite Hext. cbn [app].
  split; [assumption|].
  eapply Forall_impl; [|exact Hpa]. cbn. intros l [? ?]. split; [auto|lia].
Qed.

Lemma retry_reports_numbered_witness :
  List.length
    (prints (snd (snd (retry time_sleep_int 3 1%Z
                         (Fixtures.flaky 2 Fixtures.random_error 27%Z) tt
                         (0, [])))))
  <= calls (snd (snd (retry time_sleep_int 3 1%Z
                        (Fixtures.flaky 2 Fixtures.random_error 27%Z) tt
                        (0, []))))
  /\ Forall (fun l => af_tries l = 3%Z /\ (1 <= af_attempt l <= 3)%Z)
       (prints (snd (snd (retry time_sleep_int 3 1%Z
                            (Fixtures.flaky 2 Fixtures.random_error 27%Z) tt
                            (0, []))))).
Proof.
  apply (@retry_reports_numbered unit Z nat Z time_sleep_int 3 1%Z
           (Fixtures.flaky 2 Fixtures.random_error 27%Z) tt 0).
  lia.
Defined.

(** X4.  When [time.sleep] accepts the delay, the wrapper never ends on a
    wait, whatever the callable does: the last thing it does is a call of the
    callable or a report.  When [time.sleep] rejects the delay and
    [tries >= 2], a first call that raises an instance of [Exception] is
    reported and the wrapper ends on the wait that follows: the exception of
    [time.sleep] reaches the caller after that one call. *)
Theorem retry_never_ends_waiting :
  forall (Args R S Delay : Type) (sleep : Delay -> Outcome unit)
         (tries : Z) (delay : Delay)
         (func : Args -> S -> Outcome R * S) (args : Args) (s0 : S),
    (sleep delay = Return tt ->
     forall d,
       last (snd (snd (retry sleep tries delay func args (s0, []))))
         (Call args)
       <> Sleep d)
    /\ (forall es e s1,
          sleep delay = Raise es ->
          (2 <= tries)%Z ->
          func args s0 = (Raise e, s1) ->
          isinstance e Exception = true ->
          retry sleep tries delay func args (s0, [])
          = (Raise es,
             (s1, [Call args;
                   PrintFailed (mk_AttemptFailed 1 tries (exn_msg e));
                   Sleep delay]))).
Proof.
  intros Args R S Delay sleep tries delay func args s0. split.
  - intros Hsleep d.
    destruct (Z.le_gt_cases tries 0) as [Hle|Hgt].
    + unfold retry, range. destruct tries; try lia; discriminate.
    + destruct (@retry_decomposed Args R S Delay sleep tries delay func args
                  Hsleep s0) as (es & s & _ & _ & _ & Htr & _); [lia|].
      rewrite Htr. rewrite last_app_nonempty by discriminate.
      destruct (fst (retry sleep tries delay func args (s0, []))) as [v|e];
        [|destruct (isinstance e Exception)]; discriminate.
  - intros es e s1 Hsleep Htries Hf He.
    unfold retry, range.
    destruct (Z.to_nat tries) as [|n] eqn:En; [lia|].
    cbn [seq map].
    erewrite attempts_caught_any by eassumption.
    replace (Z.of_nat 0 <? tries - 1)%Z with true
      by (symmetry; apply Z.ltb_lt; lia).
    rewrite Hsleep. reflexivity.
Qed.

Lemma retry_never_ends_waiting_witness :
  (forall d,
      last (snd (snd (retry time_sleep_int 3 1%Z
                        (Fixtures.flaky 1 Fixtures.random_error 27%Z) tt
                        (0, []))))
        (Call tt)
      <> Sleep d)
  /\ retry time_sleep_int 3 (-1)%Z
       (Fixtures.flaky 1 Fixtures.random_error 27%Z) tt (0, [])
     = (Raise negative_sleep,
        (1, [Call tt;
             PrintFailed
               (mk_AttemptFailed 1 3 (exn_msg Fixtures.random_error));
             Sleep (-1)%Z])).
Proof.
  split.
  - apply (proj1 (@retry_never_ends_waiting unit Z nat Z time_sleep_int 3
                    1%Z (Fixtures.flaky 1 Fixtures.random_error 27%Z) tt 0)).
    reflexivity.
  - apply (proj2 (@retry_never_ends_waiting unit Z nat Z time_sleep_int 3
                    (-1)%Z (Fixtures.flaky 1 Fixtures.random_error 27%Z)
                    tt 0));
      [reflexivity|lia|reflexivity|reflexivity].
Defined.

(** X5.  With [tries >= 1] and a delay that [time.sleep] accepts, the
    wrapper adds no outcome of its own: starting from the callable's state
    at the invocation, the calls it makes are some that raise instances of
    [Exception] followed by one last call, and what the wrapper returns or
    raises, and the state it leaves the callable in, are the outcome and the
    state of that last call. *)
Theorem retry_outcome_from_callable :
  forall (Args R S Delay : Type) (sleep : Delay -> Outcome unit)
         (tries : Z) (delay : Delay)
         (func : Args -> S -> Outcome R * S) (args : Args) (s0 : S),
    (1 <= tries)%Z ->
    sleep delay = Return tt ->
    exists es s,
      fails_run func args s0 es s
      /\ func args s
         = (fst (retry sleep tries delay func args (s0, [])),
            fst (snd (retry sleep tries delay func args (s0, []))))
      /\ calls (snd (snd (retry sleep tries delay func args (s0, []))))
         = Datatypes.S (List.length es).
Proof.
  intros Args R S Delay sleep tries delay func args s0 Htries Hsleep.
  destruct (@retry_decomposed Args R S Delay sleep tries delay func args
              Hsleep s0 Htries) as (es & s & Hrun & _ & Hf & Htr & _).
  exists es, s. split; [assumption|]. split; [assumption|].
  rewrite Htr, !calls_app, calls_waited_failures.
  destruct (fst (retry sleep tries delay func args (s0, []))) as [v|e];
    [|destruct (isinstance e Exception)]; cbn; lia.
Qed.

Lemma retry_outcome_from_callable_witness :
  exists es s,
    fails_run (Fixtures.flaky 2 Fixtures.random_error 27%Z) tt 0 es s
    /\ Fixtures.flaky 2 Fixtures.random_error 27%Z tt s
       = (fst (retry time_sleep_int 3 1%Z
                 (Fixtures.flaky 2 Fixtures.random_error 27%Z) tt (0, [])),
          fst (snd (retry time_sleep_int 3 1%Z
                      (Fixtures.flaky 2 Fixtures.random_error 27%Z) tt
                      (0, []))))
    /\ calls (snd (snd (retry time_sleep_int 3 1%Z
                          (Fixtures.flaky 2 Fixtures.random_error 27%Z) tt
                          (0, []))))
       = Datatypes.S (List.length es).
Proof.
  apply (@retry_outcome_from_callable unit Z nat Z time_sleep_int 3 1%Z
           (Fixtures.flaky 2 Fixtures.random_error 27%Z) tt 0).
  - lia.
  - reflexivity.
Defined.

(* ================================================================= *)
(** ** The decorated [cube] *)

Lemma Qlt_bool_iff : forall x y,
  Qlt_bool x y = true <-> QArith_base.Qlt x y.
Proof.
  intros x y. unfold Qlt_bool. rewrite negb_true_iff.
  split.
  - intros H. apply QArith_base.Qnot_le_lt. intros Hle.
    apply QArith_base.Qle_bool_iff in Hle. congruence.
  - intros H. destruct (QArith_base.Qle_bool y x) eqn:E; [|reflexivity].
    apply QArith_base.Qle_bool_iff in E.
    now apply QArith_base.Qlt_not_le in H.
Qed.

(** X6.  Whatever [random()] returns, [cube] decorated with [@retry()]
    either returns the cube of its argument or raises the [ValueError] of
    [cube]; it raises exactly when three draws in a row are below 0.5; it
    draws (and sleeps its two seconds) between one and three times, once per
    call on the trace.  So [main] prints 27 or ends with that error. *)
Theorem retried_cube_outcomes :
  forall (draws : nat -> QArith_base.Q) (number : Z) (called : nat),
    let r := retried_cube draws number (called, []) in
    (fst r = Return (number ^ 3)%Z \/ fst r = Raise cube_error)
    /\ (fst r = Raise cube_error
        <-> QArith_base.Qlt (draws called) half
            /\ QArith_base.Qlt (draws (Datatypes.S called)) half
            /\ QArith_base.Qlt (draws (Datatypes.S (Datatypes.S called)))
                 half)
    /\ called < fst (snd r) <= called + 3
    /\ fst (snd r) = called + calls (snd (snd r))
    /\ (fst (main draws called) = Return 27%Z
        \/ fst (main draws called) = Raise cube_error).
Proof.
  intros draws number called r.
  assert (Hr : r = retried_cube draws number (called, [])) by reflexivity.
  clearbody r. rewrite <- !Qlt_bool_iff.
  unfold main, retried_cube, retry in *.
  change (range 3) with [0%Z; 1%Z; 2%Z] in *.
  cbn [attempts] in *. unfold call, cube in *. py_unfold. cbn in Hr |- *.
  destruct (Qlt_bool (draws called) half);
    destruct (Qlt_bool (draws (Datatypes.S called)) half);
    destruct (Qlt_bool (draws (Datatypes.S (Datatypes.S called))) half);
    cbn in Hr |- *; subst r; cbn;
    (split; [auto|]);
    (split; [split; [try discriminate; auto
                    |intros (? & ? & ?); try discriminate; auto]|]);
    (split; [lia|]); (split; [lia|auto]).
Qed.

(* ================================================================= *)
(** ** [lru_cache] for every callable *)

(** Projecting the state of the wrapper and counting executions on an
    extended trace. *)
Ltac lru_count :=
  cbn [fst snd cache hits misses user_state];
  unfold total_executions;
  rewrite ?filter_app, ?length_app.

Section LruBounds.

Variables (Args R S : Type).
Variable Args_eq_dec : forall a b : Args, {a = b} + {a <> b}.
Variable hashable : Args -> bool.
Variable user_function : Args -> S -> Outcome R * S.
Variable maxsize : nat.
Hypothesis maxsize_positive : 1 <= maxsize.

Lemma cache_del_shorter : forall a v (c : list (Args * R)),
  cache_get Args_eq_dec a c = Some v ->
  Datatypes.S (List.length (cache_del Args_eq_dec a c)) <= List.length c.
Proof.
  intros a v c. induction c as [|[k w] c IH]; cbn; [discriminate|].
  destruct (Args_eq_dec a k) as [->|Hne]; cbn.
  - intros _. apply le_n_S. apply filter_length_le.
  - intros H. apply le_n_S. now apply IH.
Qed.

Lemma removelast_In : forall (A : Type) (x : A) (l : list A),
  In x (removelast l) -> In x l.
Proof.
  intros A x l. induction l as [|y l IH]; [auto|].
  destruct l as [|z l]; [intros []|].
  intros [->|H]; [now left|right; now apply IH].
Qed.

Lemma removelast_shorter : forall (A : Type) (l : list A),
  l <> [] -> Datatypes.S (List.length (removelast l)) = List.length l.
Proof.
  intros A l. induction l as [|y l IH]; [congruence|].
  intros _. destruct l as [|z l]; [reflexivity|].
  cbn [removelast List.length] in *. f_equal. apply IH. discriminate.
Qed.

Lemma removelast_keys_NoDup : forall (c : list (Args * R)),
  NoDup (map fst c) -> NoDup (map fst (removelast c)).
Proof.
  induction c as [|kv c IH]; [auto|].
  intros H. inversion H as [|? ? Hnin Hnd]; subst.
  destruct c as [|kv' c]; [constructor|].
  change (NoDup (fst kv :: map fst (removelast (kv' :: c)))).
  constructor; [|now apply IH].
  intros Hin. apply Hnin. apply in_map_iff in Hin as (x & <- & Hx).
  apply in_map. now apply removelast_In.
Qed.

(** Arguments that cannot be hashed: the [TypeError] of the key, and
    nothing else happens. *)
Lemma wrapper_unhashable : forall a st,
  hashable a = false ->
  lru_cache_wrapper Args_eq_dec hashable maxsize user_function a st
  = (Raise unhashable, st).
Proof.
  intros a st Hh. unfold lru_cache_wrapper. py_unfold. rewrite Hh.
  reflexivity.
Qed.

(** One invocation, whatever it finds and however the user function ends,
    keeps the entries within the bound and their keys distinct, counts itself
    as a hit or a miss if its arguments are hashable, and executes the user
    function exactly on a miss. *)
Lemma wrapper_bounds : forall a st,
  List.length (cache (fst st)) <= maxsize ->
  NoDup (map fst (cache (fst st))) ->
  let st' :=
    snd (lru_cache_wrapper Args_eq_dec hashable maxsize user_function a st) in
  List.length (cache (fst st')) <= maxsize
  /\ NoDup (map fst (cache (fst st')))
  /\ hits (fst st') + misses (fst st')
     = (if hashable a then 1 else 0) + (hits (fst st) + misses (fst st))
  /\ total_executions (snd st') + misses (fst st)
     = total_executions (snd st) + misses (fst st').
Proof.
  intros a [d tr] Hlen Hnd. cbn [fst snd] in *.
  destruct (hashable a) eqn:Hh;
    [|rewrite wrapper_unhashable by assumption; cbn [fst snd];
      repeat split; auto; lia].
  destruct (cache_get Args_eq_dec a (cache d)) as [v|] eqn:Hget.
  - rewrite (wrapper_hit Args_eq_dec hashable user_function maxsize a d tr
               Hh Hget).
    cbn [fst snd cache hits misses List.length map].
    pose proof (cache_del_shorter a (cache d) Hget) as Hshort.
    split; [lia|]. split; [|split; lia].
    constructor; [|now apply cache_del_NoDup].
    intros H. apply cache_del_keys in H. tauto.
  - assert (Hfresh : ~ In a (map fst (cache d)))
      by now apply cache_get_None in Hget.
    unfold lru_cache_wrapper, user_call, store. py_unfold. rewrite Hh. cbn.
    rewrite Hget. cbn.
    destruct (user_function a (user_state d)) as [[v|e] s']; cbn.
    + rewrite Hget.
      destruct (Nat.leb_spec maxsize (List.length (cache d))) as [Hfull|Hroom].
      * destruct (cache d) as [|kv c] eqn:Hc; [cbn in Hfull; lia|].
        unfold oldest.
        destruct (last (map Some (kv :: c)) None) as [old|] eqn:Hold; cbn.
        -- change (match c with [] => [] | _ :: _ => kv :: removelast c end)
             with (removelast (kv :: c)).
           pose proof (@removelast_shorter _ (kv :: c)) as Hs.
           specialize (Hs ltac:(discriminate)).
           assert (Hnd' : NoDup (a :: map fst (removelast (kv :: c)))).
           { constructor; [|now apply removelast_keys_NoDup].
             intros Hin. apply Hfresh.
             apply in_map_iff in Hin as (x & <- & Hx).
             apply in_map. now apply removelast_In. }
           remember (removelast (kv :: c)) as c' eqn:Ec'. clear Ec'.
           lru_count. cbn in Hlen, Hs |- *.
           split; [lia|]. split; [assumption|split; lia].
        -- lru_count. cbn.
           split; [lia|]. split; [|split; lia].
           constructor; [intros []|constructor].
      * lru_count. cbn.
        split; [lia|]. split; [|split; lia].
        constructor; assumption.
    + lru_count. cbn.
      split; [assumption|]. split; [assumption|]. split; lia.
Qed.

(** A sequence of invocations from a state within the bound. *)
Lemma call_each_bounds : forall invocations st,
  List.length (cache (fst st)) <= maxsize ->
  NoDup (map fst (cache (fst st))) ->
  let run :=
    call_each (lru_cache_wrapper Args_eq_dec hashable maxsize user_function)
      invocations st in
  List.length (cache (fst (snd run))) <= maxsize
  /\ NoDup (map fst (cache (fst (snd run))))
  /\ hits (fst (snd run)) + misses (fst (snd run))
     = hits (fst st) + misses (fst st)
       + List.length (filter hashable invocations)
  /\ total_executions (snd (snd run)) + misses (fst st)
     = total_executions (snd st) + misses (fst (snd run))
  /\ Forall2 (fun a r => hashable a = false -> r = Raise unhashable)
       invocations (fst run).
Proof.
  intros invocations. induction invocations as [|a invocations IH];
    intros st Hlen Hnd.
  - cbn. repeat split; auto; lia.
  - cbn [call_each filter].
    pose proof (wrapper_bounds a st Hlen Hnd) as Hstep. cbn zeta in Hstep.
    pose proof (@wrapper_unhashable a st) as Hun.
    destruct (lru_cache_wrapper Args_eq_dec hashable maxsize user_function
                a st) as [r st1].
    cbn [snd] in Hstep. destruct Hstep as (Hlen1 & Hnd1 & Hcount & Hexec).
    specialize (IH st1 Hlen1 Hnd1). cbn zeta in IH.
    destruct (call_each
                (lru_cache_wrapper Args_eq_dec hashable maxsize
                   user_function)
                invocations st1) as [rs st2].
    cbn [fst snd] in *.
    destruct IH as (Hlen2 & Hnd2 & Hcount2 & Hexec2 & Hrs).
    split; [assumption|]. split; [assumption|].
    split; [destruct (hashable a); cbn [List.length]; lia|].
    split; [lia|].
    constructor; [|assumption].
    intros Hh. specialize (Hun Hh). congruence.
Qed.


End LruBounds.

(** X7.  For every callable, raising or not, and every sequence of
    invocations from an empty cache, the wrapper of [@lru_cache] never holds
    more than 128 entries, holds at most one entry per argument list, counts
    every invocation with hashable arguments as either a hit or a miss,
    executes the callable exactly once per miss, and raises the [TypeError]
    of the key for every invocation with unhashable arguments. *)
Theorem lru_cache_within_bound :
  forall (Args R S : Type)
         (Args_eq_dec : forall a b : Args, {a = b} + {a <> b})
         (hashable : Args -> bool)
         (user_function : Args -> S -> Outcome R * S)
         (invocations : list Args) (s0 : S),
    let run :=
      call_each (lru_cache Args_eq_dec hashable user_function) invocations
        (init s0) in
    List.length (cache (fst (snd run))) <= 128
    /\ NoDup (map fst (cache (fst (snd run))))
    /\ hits (fst (snd run)) + misses (fst (snd run))
       = List.length (filter hashable invocations)
    /\ total_executions (snd (snd run)) = misses (fst (snd run))
    /\ Forall2 (fun a r => hashable a = false -> r = Raise unhashable)
         invocations (fst run).
Proof.
  intros Args R S Args_eq_dec hashable user_function invocations s0 run.
  assert (H128 : 1 <= 128) by lia.
  pose proof (@call_each_bounds Args R S Args_eq_dec hashable user_function
                128 H128 invocations (init s0)) as H.
  cbn [init fst snd cache hits misses List.length map] in H.
  destruct H as (H1 & H2 & H3 & H4 & H5); [lia|constructor|].
  subst run. unfold lru_cache.
  change (total_executions (@nil (CacheEvent Args R))) with 0 in H4.
  split; [assumption|]. split; [assumption|].
  split; [lia|]. split; [lia|assumption].
Qed.



(** Invocations of a callable that always raises, from a state with no
    entry. *)
Lemma call_each_raising :
  forall (Args R S : Type)
         (Args_eq_dec : forall a b : Args, {a = b} + {a <> b})
         (hashable : Args -> bool)
         (user_function : Args -> S -> Outcome R * S) (maxsize : nat),
    (forall a s, exists e s', user_function a s = (Raise e, s')) ->
    forall (invocations : list Args) (st : LruSt Args R S),
      cache (fst st) = [] ->
      let run :=
        call_each
          (lru_cache_wrapper Args_eq_dec hashable maxsize user_function)
          invocations st in
      cache (fst (snd run)) = []
      /\ hits (fst (snd run)) = hits (fst st)
      /\ total_executions (snd (snd run))
         = total_executions (snd st)
           + List.length (filter hashable invocations)
      /\ Forall (fun r => exists e, r = Raise e) (fst run).
Proof.
  intros Args R S Args_eq_dec hashable user_function maxsize Hraise
    invocations.
  induction invocations as [|a invocations IH]; intros [d tr] Hempty.
  - cbn. repeat split; auto.
  - cbn [call_each fst filter] in *.
    destruct (hashable a) eqn:Hh.
    + destruct (Hraise a (user_state d)) as (e & s' & Hf).
      assert (Hstep :
        lru_cache_wrapper Args_eq_dec hashable maxsize user_function a
          (d, tr)
        = (Raise e,
           (mk_LruData s' [] (hits d) (Datatypes.S (misses d)),
            tr ++ [UserFunction a (Raise e)]))).
      { unfold lru_cache_wrapper, user_call. py_unfold. rewrite Hh. cbn.
        rewrite Hempty. cbn. rewrite Hf. reflexivity. }
      rewrite Hstep.
      specialize (IH (mk_LruData s' [] (hits d) (Datatypes.S (misses d)),
                      tr ++ [UserFunction a (Raise e)]) eq_refl).
      cbn zeta in IH.
      destruct (call_each
                  (lru_cache_wrapper Args_eq_dec hashable maxsize
                     user_function)
                  invocations _) as [rs st2].
      cbn [fst snd hits List.length] in *.
      destruct IH as (Hc & Hh' & He & Hall).
      repeat split; auto.
      * rewrite He. lru_count. cbn. lia.
      * constructor; [now exists e|assumption].
    + rewrite wrapper_unhashable by assumption.
      specialize (IH (d, tr) Hempty). cbn zeta in IH.
      destruct (call_each
                  (lru_cache_wrapper Args_eq_dec hashable maxsize
                     user_function)
                  invocations (d, tr)) as [rs st2].
      cbn [fst snd] in *.
      destruct IH as (Hc & Hh' & He & Hall).
      repeat split; auto.
      constructor; [now exists unhashable|assumption].
Qed.

(** X9.  An exception is never stored: around a callable that raises on
    every call, every invocation raises and the cache stays empty; the
    callable is executed at every invocation with hashable arguments,
    however often they repeat, and at no other. *)
Theorem lru_cache_never_stores_exception :
  forall (Args R S : Type)
         (Args_eq_dec : forall a b : Args, {a = b} + {a <> b})
         (hashable : Args -> bool)
         (user_function : Args -> S -> Outcome R * S)
         (invocations : list Args) (s0 : S),
    (forall a s, exists e s', user_function a s = (Raise e, s')) ->
    let run :=
      call_each (lru_cache Args_eq_dec hashable user_function) invocations
        (init s0) in
    cache (fst (snd run)) = []
    /\ hits (fst (snd run)) = 0
    /\ total_executions (snd (snd run))
       = List.length (filter hashable invocations)
    /\ Forall (fun r => exists e, r = Raise e) (fst run).
Proof.
  intros Args R S Args_eq_dec hashable user_function invocations s0 Hraise
    run.
  subst run. unfold lru_cache.
  apply (call_each_raising Args_eq_dec hashable user_function 128 Hraise
           invocations (init s0) eq_refl).
Qed.

Lemma lru_cache_never_stores_exception_witness :
  cache (fst (snd (call_each
                     (lru_cache Nat.eq_dec Nat.even
                        (fun (_ : nat) (s : nat) =>
                           (Raise (A := bool) Fixtures.random_error,
                            Datatypes.S s)))
                     [2; 3; 2] (init 0)))) = []
  /\ hits (fst (snd (call_each
                       (lru_cache Nat.eq_dec Nat.even
                          (fun (_ : nat) (s : nat) =>
                             (Raise (A := bool) Fixtures.random_error,
                              Datatypes.S s)))
                       [2; 3; 2] (init 0)))) = 0
  /\ total_executions
       (snd (snd (call_each
                    (lru_cache Nat.eq_dec Nat.even
                       (fun (_ : nat) (s : nat) =>
                          (Raise (A := bool) Fixtures.random_error,
                           Datatypes.S s)))
                    [2; 3; 2] (init 0))))
     = List.length (filter Nat.even [2; 3; 2])
  /\ Forall (fun r => exists e, r = Raise e)
       (fst (call_each
               (lru_cache Nat.eq_dec Nat.even
                  (fun (_ : nat) (s : nat) =>
                     (Raise (A := bool) Fixtures.random_error,
                      Datatypes.S s)))
               [2; 3; 2] (init 0))).
Proof.
  apply (lru_cache_never_stores_exception Nat.eq_dec Nat.even
           (fun (_ : nat) (s : nat) =>
              (Raise (A := bool) Fixtures.random_error, Datatypes.S s))
           [2; 3; 2] 0).
  intros a s. exists Fixtures.random_error, (Datatypes.S s). reflexivity.
Defined.

(** Hits on the entry of [calculations]. *)
Lemma calculations_hits : forall n h tr,
  call_each (lru_cache Fixtures.unit_eq_dec (fun _ => true) calculations)
    (repeat tt n) (mk_LruData [3%Z] [(tt, true)] h 1, tr)
  = (repeat (Return true) n, (mk_LruData [3%Z] [(tt, true)] (h + n) 1, tr)).
Proof.
  induction n as [|n IH]; intros h tr.
  - cbn. now rewrite Nat.add_0_r.
  - cbn [repeat call_each].
    change (lru_cache Fixtures.unit_eq_dec (fun _ => true) calculations tt
              (mk_LruData [3%Z] [(tt, true)] h 1, tr))
      with (Return true,
            (mk_LruData [3%Z] [(tt, true)] (Datatypes.S h) 1, tr)).
    cbv beta iota. rewrite IH. now rewrite Nat.add_succ_r.
Qed.

(** X10.  However often the cell calls [calculations()], the function body
    runs once: one three-second sleep, one miss, every further call a hit,
    and every call returns [True]. *)
Theorem calculations_runs_once :
  forall n : nat,
    call_each (lru_cache Fixtures.unit_eq_dec (fun _ => true) calculations)
      (repeat tt (Datatypes.S n)) (init [])
    = (repeat (Return true) (Datatypes.S n),
       (mk_LruData [3%Z] [(tt, true)] n 1,
        [UserFunction tt (Return true)])).
Proof.
  intros n. cbn [repeat call_each].
  change (lru_cache Fixtures.unit_eq_dec (fun _ => true) calculations tt
            (init []))
    with (Return true,
          (mk_LruData [3%Z] [(tt, true)] 0 1,
           [UserFunction tt (Return true)])).
  cbv beta iota. now rewrite calculations_hits.
Qed.

(* ================================================================= *)
(** ** [db_connection] on its other paths *)

(** X11.  When the connection is made and both the block and the commit
    return, the manager commits after the block, closes after the commit,
    does not roll back, and the statement ends normally. *)
Theorem db_connection_commits :
  forall (Connection : Type)
         (sqlite3_connect : string -> Outcome Connection)
         (sqlite3_commit : Connection -> Outcome unit)
         (db_path : string) (block : Connection -> Outcome unit)
         (c : Connection),
    sqlite3_connect db_path = Return c ->
    block c = Return tt ->
    sqlite3_commit c = Return tt ->
    db_connection sqlite3_connect sqlite3_commit db_path block (None, [])
    = (Return tt, (Some c, [Connect db_path; DbYield c; Commit c; Close c])).
Proof.
  intros Connection connect commit db_path block c Hc Hb Hm.
  rewrite (db_connection_connected connect commit db_path block Hc), Hb, Hm.
  reflexivity.
Qed.

Lemma db_connection_commits_witness :
  db_connection Fixtures.connect_ok Fixtures.commit_ok "test.db"
    (fun _ => Return tt) (None, [])
  = (Return tt,
     (Some "test.db"%string,
      [Connect "test.db"; DbYield "test.db"%string; Commit "test.db"%string;
       Close "test.db"%string])).
Proof.
  apply (db_connection_commits Fixtures.connect_ok Fixtures.commit_ok
           "test.db" (fun _ => Return tt) (c := "test.db"%string));
    reflexivity.
Defined.

(** X12.  When the block returns but the commit raises, the exception of
    the commit reaches the caller after the close; an [sqlite3.Error] is
    rolled back between the commit and the close, any other exception is
    not. *)
Theorem db_connection_commit_raises :
  forall (Connection : Type)
         (sqlite3_connect : string -> Outcome Connection)
         (sqlite3_commit : Connection -> Outcome unit)
         (db_path : string) (block : Connection -> Outcome unit)
         (c : Connection) (e : exn),
    sqlite3_connect db_path = Return c ->
    block c = Return tt ->
    sqlite3_commit c = Raise e ->
    db_connection sqlite3_connect sqlite3_commit db_path block (None, [])
    = (Raise e,
       (Some c,
        [Connect db_path; DbYield c; Commit c]
        ++ (if isinstance e sqlite3_Error then [Rollback c] else [])
        ++ [Close c])).
Proof.
  intros Connection connect commit db_path block c e Hc Hb Hm.
  rewrite (db_connection_connected connect commit db_path block Hc), Hb, Hm.
  reflexivity.
Qed.

Lemma db_connection_commit_raises_witness :
  db_connection Fixtures.connect_ok (fun _ => Raise Fixtures.locked)
    "test.db" (fun _ => Return tt) (None, [])
  = (Raise Fixtures.locked,
     (Some "test.db"%string,
      [Connect "test.db"; DbYield "test.db"%string; Commit "test.db"%string;
       Rollback "test.db"%string; Close "test.db"%string])).
Proof.
  apply (db_connection_commit_raises Fixtures.connect_ok
           (fun _ => Raise Fixtures.locked) "test.db" (fun _ => Return tt)
           (c := "test.db"%string) (e := Fixtures.locked));
    reflexivity.
Defined.

(** The close, the normal end and the rollback of [db_connection] over all
    outcomes of the connect, the block and the commit. *)
Lemma db_connection_paths :
  forall (Connection : Type)
         (sqlite3_connect : string -> Outcome Connection)
         (sqlite3_commit : Connection -> Outcome unit)
         (db_path : string) (block : Connection -> Outcome unit),
    let r :=
      db_connection sqlite3_connect sqlite3_commit db_path block (None, []) in
    match sqlite3_connect db_path with
    | Return c =>
        db_closes (snd (snd r)) = 1
        /\ last (snd (snd r)) (Connect db_path) = Close c
    | Raise _ => db_closes (snd (snd r)) = 0
    end
    /\ (fst r = Return tt
        <-> exists c, sqlite3_connect db_path = Return c
                      /\ block c = Return tt
                      /\ sqlite3_commit c = Return tt)
    /\ db_rollbacks (snd (snd r)) <= 1
    /\ (db_rollbacks (snd (snd r)) = 1 ->
        exists e, fst r = Raise e /\ isinstance e sqlite3_Error = true).
Proof.
  intros Connection connect commit db_path block r. subst r.
  destruct (connect db_path) as [c|e0] eqn:Hc.
  - rewrite (db_connection_connected connect commit db_path block Hc).
    destruct (block c) as [[]|e] eqn:Hb;
      [destruct (commit c) as [[]|e] eqn:Hm|];
      try destruct (isinstance e sqlite3_Error) eqn:He; cbn;
      (split; [split; reflexivity|]);
      (split; [split; [try discriminate; intros _; now exists c
                      |intros (c' & [= <-] & H1 & H2);
                       congruence]|]);
      (split; [lia|]);
      try discriminate; intros _; now exists e.
  - rewrite (db_connection_not_connected connect commit db_path block Hc).
    cbn. split; [reflexivity|].
    split; [split; [discriminate|intros (c & [=] & _)]|].
    split; [lia|discriminate].
Qed.


(** X13.  On every path: a connection that was made is closed exactly once
    and the close is the last thing the manager does, while nothing is closed
    when no connection was made; the statement ends normally only if the
    connect, the block and the commit all returned; and there is at most one
    rollback, only for an exception that is an [sqlite3.Error] and that then
    reaches the caller. *)
Theorem db_connection_every_path :
  forall (Connection : Type)
         (sqlite3_connect : string -> Outcome Connection)
         (sqlite3_commit : Connection -> Outcome unit)
         (db_path : string) (block : Connection -> Outcome unit),
    let r :=
      db_connection sqlite3_connect sqlite3_commit db_path block (None, []) in
    match sqlite3_connect db_path with
    | Return c =>
        db_closes (snd (snd r)) = 1
        /\ last (snd (snd r)) (Connect db_path) = Close c
    | Raise _ => db_closes (snd (snd r)) = 0
    end
    /\ (fst r = Return tt
        <-> exists c, sqlite3_connect db_path = Return c
                      /\ block c = Return tt
                      /\ sqlite3_commit c = Return tt)
    /\ db_rollbacks (snd (snd r)) <= 1
    /\ (db_rollbacks (snd (snd r)) = 1 ->
        exists e, fst r = Raise e /\ isinstance e sqlite3_Error = true).
Proof.
  intros Connection connect commit db_path block.
  exact (db_connection_paths connect commit db_path block).
Qed.

Lemma db_connection_every_path_witness :
  (db_closes
     (snd (snd (db_connection Fixtures.connect_ok Fixtures.commit_ok
                  "test.db" (fun _ => Raise Fixtures.locked) (None, []))))
   = 1
   /\ last
        (snd (snd (db_connection Fixtures.connect_ok Fixtures.commit_ok
                     "test.db" (fun _ => Raise Fixtures.locked) (None, []))))
        (Connect "test.db")
      = Close "test.db"%string)
  /\ exists e,
       fst (db_connection Fixtures.connect_ok Fixtures.commit_ok "test.db"
              (fun _ => Raise Fixtures.locked) (None, []))
       = Raise e
       /\ isinstance e sqlite3_Error = true.
Proof.
  pose proof (db_connection_every_path Fixtures.connect_ok
                Fixtures.commit_ok "test.db"
                (fun _ => Raise Fixtures.locked)) as H.
  cbv zeta in H. destruct H as (Hclose & _ & _ & Hroll).
  split; [exact Hclose|]. apply Hroll. reflexivity.
Defined.

(** X14.  The cell around [db_connection]: it prints the success line
    exactly when the connect, the block and the commit all returned; it lets
    an exception through only if that is no instance of [Exception]; and
    whichever line it prints, a connection that was made has been closed
    by then. *)
Theorem db_cell_reports :
  forall (Connection : Type)
         (sqlite3_connect : string -> Outcome Connection)
         (sqlite3_commit : Connection -> Outcome unit)
         (block : Connection -> Outcome unit),
    let r := db_cell sqlite3_connect sqlite3_commit block in
    (fst r = Return success_line
     <-> exists c, sqlite3_connect "test.db"%string = Return c
                   /\ block c = Return tt
                   /\ sqlite3_commit c = Return tt)
    /\ (forall e, fst r = Raise e -> isinstance e Exception = false)
    /\ (forall e,
          fst (db_connection sqlite3_connect sqlite3_commit "test.db"%string block
                 (None, [])) = Raise e ->
          isinstance e Exception = true ->
          fst r = Return (error_line e))
    /\ (forall c, sqlite3_connect "test.db"%string = Return c ->
                  last (snd (snd r)) (Connect "test.db") = Close c).
Proof.
  intros Connection connect commit block r.
  pose proof (db_connection_paths connect commit "test.db"%string block)
    as H.
  cbn zeta in H. subst r. unfold db_cell. py_unfold.
  destruct (db_connection connect commit "test.db"%string block (None, []))
    as [[[]|e] st] eqn:Hrun; cbn [fst snd] in *.
  - destruct H as (Hclose & Hok & _).
    split; [split; [intros _; now apply Hok|reflexivity]|].
    split; [discriminate|]. split; [discriminate|].
    intros c Hc. rewrite Hc in Hclose. apply Hclose.
  - destruct H as (Hclose & Hok & _).
    destruct (isinstance e Exception) eqn:He; cbn [fst snd].
    + split; [split; [discriminate|]|].
      { intros Hex. apply Hok in Hex. discriminate Hex. }
      split; [discriminate|]. split; [now intros e' [= <-] _|].
      intros c Hc. rewrite Hc in Hclose. apply Hclose.
    + split; [split; [discriminate|]|].
      { intros Hex. apply Hok in Hex. discriminate Hex. }
      split; [now intros e' [= <-]|]. split; [intros e' [= <-]; congruence|].
      intros c Hc. rewrite Hc in Hclose. apply Hclose.
Qed.

Lemma db_cell_reports_witness :
  isinstance Fixtures.interrupt Exception = false
  /\ fst (db_cell Fixtures.connect_ok Fixtures.commit_ok
            (fun _ => Raise Fixtures.locked))
     = Return (error_line Fixtures.locked)
  /\ last (snd (snd (db_cell Fixtures.connect_ok Fixtures.commit_ok
                       (fun _ => Raise Fixtures.locked))))
       (Connect "test.db")
     = Close "test.db"%string.
Proof.
  split; [|split].
  - apply (proj1 (proj2 (db_cell_reports Fixtures.connect_ok
                           Fixtures.commit_ok
                           (fun _ => Raise Fixtures.interrupt)))
             Fixtures.interrupt).
    reflexivity.
  - apply (proj1 (proj2 (proj2 (db_cell_reports Fixtures.connect_ok
                                  Fixtures.commit_ok
                                  (fun _ => Raise Fixtures.locked))))
             Fixtures.locked); reflexivity.
  - apply (proj2 (proj2 (proj2 (db_cell_reports Fixtures.connect_ok
                                  Fixtures.commit_ok
                                  (fun _ => Raise Fixtures.locked))))
             "test.db"%string).
    reflexivity.
Defined.

(* ================================================================= *)
(** ** [AsyncWeatherFetcher.get_weather] *)

(** X15.  [get_weather] raises its [RuntimeError] on an object that has not
    entered the context, and also after an [async with] whose request
    failed; after an [async with] that did enter, the guard still passes,
    because [__aexit__] closes the response but keeps it in the object, so
    the call reads the text of the closed response. *)
Theorem get_weather_guard :
  forall (Session Response : Type) (ClientSession : Session)
         (session_get : Session -> string -> Outcome Response)
         (response_text : Response -> Outcome string)
         (city format : string),
    get_weather response_text (__init__ Session Response city format)
    = (Raise not_logged_in, __init__ Session Response city format)
    /\ (forall e block,
          session_get ClientSession (wttr_url city format) = Raise e ->
          fst (get_weather response_text
                 (snd (with_fetcher ClientSession session_get city format
                         block)))
          = Raise not_logged_in)
    /\ (forall r block,
          session_get ClientSession (wttr_url city format) = Return r ->
          get_weather response_text
            (snd (with_fetcher ClientSession session_get city format block))
          = (response_text r,
             snd (with_fetcher ClientSession session_get city format block))).
Proof.
  intros Session Response cs session_get response_text city format.
  split; [reflexivity|]. split.
  - intros e block He.
    unfold with_fetcher, async_with, __aenter__, __init__, get_weather.
    py_unfold. cbn -[wttr_url]. rewrite He. reflexivity.
  - intros r block Hr.
    rewrite (with_fetcher_entered cs session_get city format block Hr).
    unfold get_weather. py_unfold. cbn.
    now destruct (response_text r).
Qed.

Lemma get_weather_guard_witness :
  fst (get_weather (fun r : string => Return r)
         (snd (with_fetcher 1%nat Fixtures.get_fails "Paris" "%C+%t+%w+%h"
                 (Return tt))))
  = Raise not_logged_in
  /\ get_weather (fun r : string => Return r)
       (snd (with_fetcher 1%nat Fixtures.get_ok "Paris" "%C+%t+%w+%h"
               (Return tt)))
     = (Return (wttr_url "Paris" "%C+%t+%w+%h"),
        snd (with_fetcher 1%nat Fixtures.get_ok "Paris" "%C+%t+%w+%h"
               (Return tt))).
Proof.
  split.
  - apply (proj1 (proj2 (get_weather_guard 1%nat Fixtures.get_fails
                           (fun r : string => Return r)
                           "Paris" "%C+%t+%w+%h"))
             Fixtures.invalid_url (Return tt)).
    reflexivity.
  - apply (proj2 (proj2 (get_weather_guard 1%nat Fixtures.get_ok
                           (fun r : string => Return r)
                           "Paris" "%C+%t+%w+%h"))
             (wttr_url "Paris" "%C+%t+%w+%h") (Return tt)).
    reflexivity.
Defined.

(** X16.  An [async with] block that awaits [get_weather] after a request
    that answered: the text is read from the response of the request; both
    handles are closed afterwards, response first; and when reading the text
    raises, that exception is reported after the closes and reaches the
    caller. *)
Theorem with_get_weather_releases :
  forall (Session Response : Type) (ClientSession : Session)
         (session_get : Session -> string -> Outcome Response)
         (response_text : Response -> Outcome string)
         (city format : string) (r : Response),
    session_get ClientSession (wttr_url city format) = Return r ->
    with_get_weather ClientSession session_get response_text city format
    = (match response_text r with
       | Return _ => Return tt
       | Raise e => Raise e
       end,
       (mk_self city format (Some ClientSession) (Some r),
        [NewSession ClientSession;
         Get ClientSession (wttr_url city format);
         Body; ResponseClose r; SessionClose ClientSession]
        ++ match response_text r with
           | Return _ => []
           | Raise e => [PrintError e]
           end)).
Proof.
  intros Session Response cs session_get response_text city format r Hr.
  unfold with_get_weather, async_with, __aenter__, __aexit__, __init__,
    get_weather.
  py_unfold. cbn -[wttr_url]. rewrite Hr. cbn -[wttr_url].
  destruct (response_text r); reflexivity.
Qed.

Lemma with_get_weather_releases_witness :
  with_get_weather 1%nat Fixtures.get_ok
    (fun _ : string => Raise Fixtures.bad_value) "Paris" "%C+%t+%w+%h"
  = (Raise Fixtures.bad_value,
     (mk_self "Paris" "%C+%t+%w+%h" (Some 1%nat)
        (Some (wttr_url "Paris" "%C+%t+%w+%h")),
      [NewSession 1%nat; Get 1%nat (wttr_url "Paris" "%C+%t+%w+%h");
       Body; ResponseClose (wttr_url "Paris" "%C+%t+%w+%h");
       SessionClose 1%nat; PrintError Fixtures.bad_value])).
Proof.
  apply (with_get_weather_releases 1%nat Fixtures.get_ok
           (fun _ : string => Raise Fixtures.bad_value)
           "Paris" "%C+%t+%w+%h" (r := wttr_url "Paris" "%C+%t+%w+%h")).
  reflexivity.
Defined.

(* ================================================================= *)
(** ** [async_http_client] on every path, and [fetch_data] *)

(** The run of [async_http_client] for each outcome of the block. *)
Lemma async_http_client_run :
  forall (Session : Type) (ClientSession : Session) (url : string)
         (block : Session -> Outcome unit),
    async_http_client ClientSession url block (tt, [])
    = (block ClientSession,
       (tt,
        [HttpNewSession ClientSession; PrintOpening url;
         HttpYield ClientSession]
        ++ match block ClientSession with
           | Return _ => [PrintFinished]
           | Raise e =>
               if isinstance e Exception then [PrintSessionError e] else []
           end
        ++ [HttpSessionClose ClientSession; PrintClosed])).
Proof.
  intros Session cs url block.
  unfold async_http_client. py_unfold. cbn.
  destruct (block cs) as [[]|e]; cbn; [reflexivity|].
  destruct (isinstance e Exception); reflexivity.
Qed.

(** X17.  On every path [async_http_client] hands the outcome of the block
    to the caller, closes the session exactly once, and ends by reporting the
    close; it reports success exactly when the block returned, and reports
    an error exactly when the block raised an instance of [Exception]. *)
Theorem async_http_client_every_path :
  forall (Session : Type) (ClientSession : Session) (url : string)
         (block : Session -> Outcome unit),
    let r := async_http_client ClientSession url block (tt, []) in
    fst r = block ClientSession
    /\ session_closes (snd (snd r)) = 1
    /\ last (snd (snd r)) PrintFinished = PrintClosed
    /\ (In PrintFinished (snd (snd r)) <-> block ClientSession = Return tt)
    /\ (forall e,
          In (PrintSessionError e) (snd (snd r))
          <-> block ClientSession = Raise e
              /\ isinstance e Exception = true).
Proof.
  intros Session cs url block r. subst r.
  rewrite async_http_client_run.
  destruct (block cs) as [[]|e] eqn:Hb;
    [|destruct (isinstance e Exception) eqn:He]; cbn;
    (split; [reflexivity|]); (split; [reflexivity|]);
    (split; [reflexivity|]).
  - split; [split; auto|].
    intros e. split; [|intros [[=] _]].
    intros [H|[H|[H|[H|[H|[H|[]]]]]]]; discriminate H.
  - split; [split; [|discriminate]|].
    + intros [H|[H|[H|[H|[H|[H|[]]]]]]]; discriminate H.
    + intros e'. split.
      * intros [H|[H|[H|[H|[H|[H|[]]]]]]]; try discriminate H.
        injection H as <-. now split.
      * intros [[= <-] _]. right. right. right. now left.
  - split; [split; [|discriminate]|].
    + intros [H|[H|[H|[H|[H|[]]]]]]; discriminate H.
    + intros e'. split.
      * intros [H|[H|[H|[H|[H|[]]]]]]; discriminate H.
      * intros [[= <-] He']. congruence.
Qed.


